(** * okaara.shell: an interactive text menu shell

    A shallow embedding of [okaara/shell.py] (classes [MenuItem], [Screen]
    and [Shell]) together with the properties of its dispatch, navigation
    and rendering code.

    Python objects are modelled as follows.
    - [MenuItem] instances are never assigned to after [__init__], so an
      instance is a record value.
    - [Screen] instances are mutated by [add_menu_item] and are shared by
      reference ([Shell.screens], [current_screen], [home_screen] and
      [previous_screen] may all point at one object), so they live in a
      heap indexed by locations.
    - The prompt object, the logger and [os.system] are the environment:
      every call to them is appended to a trace of events.
    - Exceptions are values of [exn]; a computation either returns or
      raises, and in both cases yields the world it leaves behind. *)

From Stdlib Require Import String Ascii List ZArith Bool Lia.
From stdpp Require Import base option list gmap strings fin_maps.

Local Open Scope string_scope.
Local Open Scope list_scope.

(* ===================================================================== *)
(** ** Python values, exceptions and results                              *)
(* ===================================================================== *)

(** Values that may be bound to a menu item as positional or keyword
    arguments.  Tokens typed by the user are always [VStr]. *)
Inductive pyval :=
| VNone
| VBool (b : bool)
| VInt (z : Z)
| VStr (s : string).

#[global] Instance pyval_eq_dec : EqDecision pyval.
Proof. solve_decision. Defined.

(** The callables that a menu item may hold: the module-level [noop], the
    bound methods of the shell, and functions supplied by the embedding
    application (identified by a number). *)
Inductive callable :=
| Fnoop
| Fhome
| Fprevious
| Frender_menu
| Fclear_screen
| Fstop
| Fuser (n : nat).

#[global] Instance callable_eq_dec : EqDecision callable.
Proof. solve_decision. Defined.

Inductive exn :=
| ValueError (msg : string)
| TypeError
| AttributeError (name : string)
| KeyError (key : string)
| IndexError
| Exit
| UserError (n : nat).

#[global] Instance exn_eq_dec : EqDecision exn.
Proof. solve_decision. Defined.

(** Result of a computation that touches no shared state. *)
Inductive result (A : Type) :=
| Ok (a : A)
| Err (e : exn).
Arguments Ok {A} a.
Arguments Err {A} e.

Definition result_bind {A B} (f : A → result B) (r : result A) : result B :=
  match r with
  | Ok a => f a
  | Err e => Err e
  end.

#[global] Instance result_ret : MRet result := @Ok.
#[global] Instance result_mbind : MBind result := @result_bind.

(* ===================================================================== *)
(** ** The [str] methods used by the shell                                *)
(* ===================================================================== *)

Module Str.

Definition newline : string := String (ascii_of_nat 10) EmptyString.

(** The one-character string holding a double quote. *)
Definition dquote : string := String (ascii_of_nat 34) EmptyString.

(** [c.isspace()] for a byte string: space, tab, line feed, vertical
    tab, form feed and carriage return. *)
Definition isspace (c : ascii) : bool :=
  let n := nat_of_ascii c in
  (Nat.leb 9 n && Nat.leb n 13) || Nat.eqb n 32.

Fixpoint lstrip (s : string) : string :=
  match s with
  | EmptyString => EmptyString
  | String c s' => if isspace c then lstrip s' else s
  end.

Fixpoint rstrip (s : string) : string :=
  match s with
  | EmptyString => EmptyString
  | String c s' =>
      match rstrip s' with
      | EmptyString => if isspace c then EmptyString else String c EmptyString
      | r => String c r
      end
  end.

(** [s.strip()] *)
Definition strip (s : string) : string := rstrip (lstrip s).

(** [s.split()] with no separator: the maximal runs of characters that
    are not whitespace, in order.  [cur] is the token being read. *)
Fixpoint split_from (cur : string) (s : string) : list string :=
  match s with
  | EmptyString =>
      match cur with
      | EmptyString => []
      | _ => [cur]
      end
  | String c s' =>
      if isspace c then
        match cur with
        | EmptyString => split_from EmptyString s'
        | _ => cur :: split_from EmptyString s'
        end
      else split_from (cur +:+ String c EmptyString) s'
  end.

Definition split (s : string) : list string := split_from EmptyString s.

(** Whether every character of [s] is whitespace. *)
Fixpoint all_space (s : string) : bool :=
  match s with
  | EmptyString => true
  | String c s' => isspace c && all_space s'
  end.

Fixpoint spaces (n : nat) : string :=
  match n with
  | O => EmptyString
  | S k => String " " (spaces k)
  end.

(** ['%-4s' % s]: left-justified in a field of at least [width]
    characters; a longer string is not cut. *)
Definition ljust (width : nat) (s : string) : string :=
  s +:+ spaces (width - String.length s).

(** [s.replace(old, new)] for a non-empty [old]: occurrences are found
    left to right and do not overlap.  [skip] counts the characters of
    a match that are still to be dropped. *)
Fixpoint replace_from (old new : string) (skip : nat) (s : string) : string :=
  match s with
  | EmptyString => EmptyString
  | String c s' =>
      match skip with
      | S k => replace_from old new k s'
      | O =>
          if String.prefix old s
          then new +:+ replace_from old new (String.length old - 1) s'
          else String c (replace_from old new 0 s')
      end
  end.

Definition replace (old new s : string) : string := replace_from old new 0 s.

End Str.

(* ===================================================================== *)
(** ** class MenuItem                                                     *)
(* ===================================================================== *)

(** A Python sequence of trigger strings is a [list] or a [tuple]; the two
    never compare equal, whatever they hold. *)
Inductive seq_kind := PyList | PyTuple.

#[global] Instance seq_kind_eq_dec : EqDecision seq_kind.
Proof. solve_decision. Defined.

Record pyseq := PySeq { seq_kind_of : seq_kind; seq_items : list string }.

#[global] Instance pyseq_eq_dec : EqDecision pyseq.
Proof. solve_decision. Defined.

(** What a caller may pass as the [triggers] parameter. *)
Inductive triggers_arg :=
| TrNone
| TrStr (s : string)
| TrList (l : list string)
| TrTuple (l : list string).

(** [for trigger in triggers: m[trigger] = v], the loop by which both
    [Screen.add_menu_item] and [Shell.add_menu_item] fill their map. *)
Definition register {V} (v : V) (m : gmap string V) (triggers : list string)
  : gmap string V :=
  foldl (λ m trigger, <[trigger := v]> m) m triggers.

Module MenuItem.

Record t := mk {
  triggers : pyseq;
  description : string;
  func : callable;
  args : list pyval;
  kwargs : gmap string pyval
}.

(** The names of the named parameters of [__init__].  The parameters
    below are the arguments once Python has bound them: a keyword with
    one of these names goes to its parameter and never lands in
    [**kwargs], so a call that would leave one there is the call Python
    rejects for giving the parameter twice. *)
Definition init_params : list string :=
  ["self"; "triggers"; "description"; "func"].

Definition __init__ (triggers : triggers_arg) (description : string)
    (func : option callable) (args : list pyval)
    (kwargs : gmap string pyval) : result t :=
  if bool_decide (Exists (λ p, is_Some (kwargs !! p)) init_params)
  then Err TypeError
  else
    match triggers with
    | TrNone => Err (ValueError "trigger may not be None")
    | _ =>
        match func with
        | None => Err (ValueError "func may not be None")
        | Some f =>
            (* Make sure it's in list form *)
            let triggers :=
              match triggers with
              | TrList l => PySeq PyList l
              | TrTuple l => PySeq PyTuple l
              | TrStr s => PySeq PyList [s]
              | TrNone => PySeq PyList []
              end in
            Ok (mk triggers description f args kwargs)
        end
    end.

(** [self.triggers == other.triggers] *)
Definition __eq__ (self other : t) : bool :=
  bool_decide (triggers self = triggers other).

(** The value of an attribute read. *)
Inductive attr :=
| AttrSeq (s : pyseq)
| AttrStr (s : string)
| AttrFunc (f : callable)
| AttrArgs (a : list pyval)
| AttrKwargs (k : gmap string pyval)
| AttrClass (name : string).

(** Names defined by the class statement itself. *)
Definition class_attrs : list string :=
  ["__init__"; "__str__"; "__eq__"; "__doc__"; "__module__"].

(** [self.<name>]: the instance attributes are the five assigned in
    [__init__]; the class defines no [__getattr__]. *)
Definition getattr (self : t) (name : string) : result attr :=
  if bool_decide (name = "triggers") then Ok (AttrSeq (triggers self))
  else if bool_decide (name = "description") then Ok (AttrStr (description self))
  else if bool_decide (name = "func") then Ok (AttrFunc (func self))
  else if bool_decide (name = "args") then Ok (AttrArgs (args self))
  else if bool_decide (name = "kwargs") then Ok (AttrKwargs (kwargs self))
  else if bool_decide (name ∈ class_attrs) then Ok (AttrClass name)
  else Err (AttributeError name).

End MenuItem.

(* ===================================================================== *)
(** ** class Screen                                                       *)
(* ===================================================================== *)

Module Screen.

Record t := mk {
  id : string;
  menu_items : gmap string MenuItem.t;
  ordered_menu_items : list MenuItem.t
}.

Definition __init__ (id : option string) : result t :=
  match id with
  | None => Err (ValueError "id may not be None")
  | Some id => Ok (mk id ∅ [])
  end.

(** [x in l] for a list of menu items: some element is [x] itself or
    compares equal to it.  [__eq__] is reflexive, so the identity test
    adds nothing. *)
Definition contains (l : list MenuItem.t) (x : MenuItem.t) : bool :=
  existsb (λ y, MenuItem.__eq__ y x) l.

Definition add_menu_item (self : t) (menu_item : option MenuItem.t) : result t :=
  match menu_item with
  | None => Err (ValueError "menu_item may not be None")
  | Some menu_item =>
      (* Overwrite the existing menu item with the same trigger if one exists *)
      let menu_items :=
        register menu_item (menu_items self)
                 (seq_items (MenuItem.triggers menu_item)) in
      let ordered :=
        if negb (contains (ordered_menu_items self) menu_item)
        then ordered_menu_items self ++ [menu_item]
        else ordered_menu_items self in
      Ok (mk (id self) menu_items ordered)
  end.

Definition item (self : t) (trigger : string) : option MenuItem.t :=
  menu_items self !! trigger.

(** [tuple(self.ordered_menu_items)]: a copy, as a value. *)
Definition items (self : t) : list MenuItem.t := ordered_menu_items self.

End Screen.

(* ===================================================================== *)
(** ** The world a Shell runs in                                          *)
(* ===================================================================== *)

(** References to [Screen] objects. *)
Abbreviation loc := nat.

(** The attributes of the one [Shell] instance.  [self.prompt] is part of
    the environment and has no field here. *)
Record shell := Shell_mk {
  home_screen : option loc;
  current_screen : option loc;
  previous_screen : option loc;
  screens : gmap string loc;
  auto_render_menu : bool;
  prompt_prefix : string;
  shell_menu_items : gmap string MenuItem.t
}.

Definition set_home_screen (v : option loc) (s : shell) : shell :=
  Shell_mk v (current_screen s) (previous_screen s) (screens s)
           (auto_render_menu s) (prompt_prefix s) (shell_menu_items s).
Definition set_current_screen (v : option loc) (s : shell) : shell :=
  Shell_mk (home_screen s) v (previous_screen s) (screens s)
           (auto_render_menu s) (prompt_prefix s) (shell_menu_items s).
Definition set_previous_screen (v : option loc) (s : shell) : shell :=
  Shell_mk (home_screen s) (current_screen s) v (screens s)
           (auto_render_menu s) (prompt_prefix s) (shell_menu_items s).
Definition set_screens (v : gmap string loc) (s : shell) : shell :=
  Shell_mk (home_screen s) (current_screen s) (previous_screen s) v
           (auto_render_menu s) (prompt_prefix s) (shell_menu_items s).
Definition set_shell_menu_items (v : gmap string MenuItem.t) (s : shell) : shell :=
  Shell_mk (home_screen s) (current_screen s) (previous_screen s) (screens s)
           (auto_render_menu s) (prompt_prefix s) v.

(** What the shell does to its environment, in order. *)
Inductive event :=
| EvPrompt (prefix : string)     (* self.prompt.prompt(prefix) is entered *)
| EvWrite (text : string)        (* self.prompt.write(text) *)
| EvLog (msg : string)           (* LOG.error(msg) *)
| EvSystem (cmd : string)        (* os.system(cmd) *)
| EvCall (f : callable) (args : list pyval) (kwargs : gmap string pyval).
                                 (* f is entered with these arguments *)

(** What [self.prompt.prompt] does when it is called: it returns a line
    (or [None]) or raises one of the two exceptions [start] handles. *)
Inductive read :=
| Input (line : option string)
| EOFError
| KeyboardInterrupt.

Record World := World_mk {
  heap : gmap loc Screen.t;
  self : shell;
  trace : list event
}.

(** Outcome of a computation on the world.  [Stuck] is not a Python
    outcome: it marks a reference to an object that is not in the heap,
    which no Python program can hold. *)
Inductive res (A : Type) :=
| Val (a : A) (w : World)
| Exc (e : exn) (w : World)
| Stuck.
Arguments Val {A} a w.
Arguments Exc {A} e w.
Arguments Stuck {A}.

Definition M (A : Type) : Type := World → res A.

Definition M_ret {A} (a : A) : M A := λ w, Val a w.

Definition M_bind {A B} (f : A → M B) (m : M A) : M B :=
  λ w, match m w with
       | Val a w' => f a w'
       | Exc e w' => Exc e w'
       | Stuck => Stuck
       end.

Notation "'let*' x := m 'in' k" := (M_bind (fun x => k) m)
  (at level 10, x name, m at level 100, k at level 200, only parsing).

Definition raise {A} (e : exn) : M A := λ w, Exc e w.

Definition lift {A} (r : result A) : M A :=
  match r with
  | Ok a => M_ret a
  | Err e => raise e
  end.

Definition get_self : M shell := λ w, Val (self w) w.

Definition modify_self (f : shell → shell) : M unit :=
  λ w, Val tt (World_mk (heap w) (f (self w)) (trace w)).

Definition emit (ev : event) : M unit :=
  λ w, Val tt (World_mk (heap w) (self w) (trace w ++ [ev])).

(** Follow a reference to a [Screen]. *)
Definition deref (l : loc) : M Screen.t :=
  λ w, match heap w !! l with
       | Some scr => Val scr w
       | None => Stuck
       end.

(** [Screen(id)]: build the object and return a reference to it. *)
Definition new_Screen (id : option string) : M loc :=
  let* scr := lift (Screen.__init__ id) in
  λ w, let l := fresh (dom (heap w)) in
       Val l (World_mk (<[l := scr]> (heap w)) (self w) (trace w)).

(** [screen.add_menu_item(menu_item)] through a reference. *)
Definition Screen_add_menu_item (l : loc) (menu_item : option MenuItem.t) : M unit :=
  let* scr := deref l in
  let* scr' := lift (Screen.add_menu_item scr menu_item) in
  λ w, Val tt (World_mk (<[l := scr']> (heap w)) (self w) (trace w)).

(** [o.id] where [o] is a reference to a [Screen] or [None]. *)
Definition attr_id (o : option loc) : M string :=
  match o with
  | None => raise (AttributeError "id")
  | Some l => let* scr := deref l in M_ret (Screen.id scr)
  end.

(** [for x in l: body(x)] *)
Fixpoint for_each {A} (l : list A) (body : A → M unit) : M unit :=
  match l with
  | [] => M_ret tt
  | x :: l' => let* _ := body x in for_each l' body
  end.

(** [try: m / except Exit: ...]; the result tells whether [Exit] was
    caught. *)
Definition catch_Exit (m : M unit) : M bool :=
  λ w, match m w with
       | Val _ w' => Val false w'
       | Exc Exit w' => Val true w'
       | Exc e w' => Exc e w'
       | Stuck => Stuck
       end.

(** [str(x)] for a screen id passed to [transition]. *)
Definition str_of_id (x : option string) : string :=
  match x with
  | None => "None"
  | Some s => s
  end.

(** Truth value of a Python value. *)
Definition truthy (v : pyval) : bool :=
  match v with
  | VNone => false
  | VBool b => b
  | VInt z => negb (Z.eqb z 0)
  | VStr s => negb (bool_decide (s = EmptyString))
  end.

(* ===================================================================== *)
(** ** class Shell                                                        *)
(* ===================================================================== *)

(** How the body of the [while] loop of [start] is left. *)
Inductive flow :=
| Continue    (* the next pass of the loop begins *)
| Leave.      (* [return] or [break]: nothing follows the loop *)

(** How far a call of [start] got on the reads it was given. *)
Inductive ended :=
| Returned (unread : list read)   (* [start] returned to its caller *)
| Waiting.                        (* blocked in [prompt]: no read is left *)

Module Shell.

Definition write (text : string) : M unit := emit (EvWrite text).

Definition add_menu_item (self : shell) (menu_item : option MenuItem.t)
  : result shell :=
  match menu_item with
  | None => Err (ValueError "menu_item may not be None")
  | Some menu_item =>
      (* Overwrite the existing menu item with the same trigger if one exists *)
      Ok (set_shell_menu_items
            (register menu_item (shell_menu_items self)
                      (seq_items (MenuItem.triggers menu_item)))
            self)
  end.

Definition __init__ (auto_render_menu include_long_triggers : bool)
  : result shell :=
  let previous_triggers := ["<"] in
  let home_triggers := ["^"] in
  let quit_triggers := ["q"] in
  let help_triggers := ["?"] in
  let clear_triggers := ["/"] in
  let home_triggers :=
    if include_long_triggers then home_triggers ++ ["home"] else home_triggers in
  let quit_triggers :=
    if include_long_triggers then quit_triggers ++ ["quit"; "exit"] else quit_triggers in
  let help_triggers :=
    if include_long_triggers then help_triggers ++ ["help"] else help_triggers in
  let clear_triggers :=
    if include_long_triggers then clear_triggers ++ ["clear"] else clear_triggers in
  let self := Shell_mk None None None ∅ auto_render_menu "($s) => " ∅ in
  i ← MenuItem.__init__ (TrList home_triggers) "move to the home screen" (Some Fhome) [] ∅;
  self ← add_menu_item self (Some i);
  i ← MenuItem.__init__ (TrList previous_triggers) "move to the previous screen" (Some Fprevious) [] ∅;
  self ← add_menu_item self (Some i);
  i ← MenuItem.__init__ (TrList help_triggers) "display help" (Some Frender_menu) [] ∅;
  self ← add_menu_item self (Some i);
  i ← MenuItem.__init__ (TrList clear_triggers) "clears the screen" (Some Fclear_screen) [] ∅;
  self ← add_menu_item self (Some i);
  i ← MenuItem.__init__ (TrList quit_triggers) "exit" (Some Fstop) [] ∅;
  add_menu_item self (Some i).

Definition add_screen (screen : option loc) (is_home : bool) : M unit :=
  match screen with
  | None => raise (ValueError "screen may not be None")
  | Some l =>
      (* Overwrite a previously added screen if one exists *)
      let* id := attr_id (Some l) in
      let* _ := modify_self (λ s, set_screens (<[id := l]> (screens s)) s) in
      (* If there is no current screen set, use the newly added one *)
      let* s := get_self in
      let* _ :=
        match current_screen s with
        | None => modify_self (set_current_screen (Some l))
        | Some _ => M_ret tt
        end in
      (* If the screen is indicated as the home screen or one has not been
         set, set the home screen *)
      let* s := get_self in
      if is_home || bool_decide (home_screen s = None)
      then modify_self (set_home_screen (Some l))
      else M_ret tt
  end.

(* -- screen transition calls ---------------------------------------- *)

Definition transition (to_screen_id : option string) : M unit :=
  let* s := get_self in
  let* to_screen_id :=
    match to_screen_id with
    | Some i =>
        if bool_decide (is_Some (screens s !! i)) then M_ret i
        else
          let* _ := emit (EvLog ("Attempt to transition to non-existent screen ["
                                   +:+ str_of_id to_screen_id +:+ "]")) in
          attr_id (home_screen s)
    | None =>
        let* _ := emit (EvLog ("Attempt to transition to non-existent screen ["
                                 +:+ str_of_id to_screen_id +:+ "]")) in
        attr_id (home_screen s)
    end in
  let* _ := modify_self (λ s, set_previous_screen (current_screen s) s) in
  let* s := get_self in
  match screens s !! to_screen_id with
  | None => raise (KeyError to_screen_id)
  | Some l => modify_self (set_current_screen (Some l))
  end.

Definition home : M unit :=
  let* s := get_self in
  let* i := attr_id (home_screen s) in
  transition (Some i).

Definition previous : M unit :=
  let* s := get_self in
  match previous_screen s with
  | None => home
  | Some p =>
      let* i := attr_id (Some p) in
      transition (Some i)
  end.

(* -- display related calls ------------------------------------------ *)

Definition clear_screen : M unit := emit (EvSystem "clear").

Definition _render_menu_item (trigger description : string) : M unit :=
  if Nat.ltb (String.length trigger) 4 then
    write ("   " +:+ Str.ljust 4 trigger +:+ description)
  else
    let* _ := write ("   " +:+ trigger) in
    write ("       " +:+ description).

(** [self._render_menu_item(item.trigger, item.description)]: both
    attribute reads come before the call.  [_render_menu_item] is
    written for strings. *)
Definition render_item (item : MenuItem.t) : M unit :=
  let* trigger := lift (MenuItem.getattr item "trigger") in
  let* description := lift (MenuItem.getattr item "description") in
  match trigger, description with
  | MenuItem.AttrStr trigger, MenuItem.AttrStr description =>
      _render_menu_item trigger description
  | _, _ => raise TypeError
  end.

Definition render_menu (display_shell_menu : bool) : M unit :=
  (* Screen menu items *)
  let* _ := write EmptyString in
  let* s := get_self in
  let* items :=
    match current_screen s with
    | None => raise (AttributeError "items")
    | Some l => let* scr := deref l in M_ret (Screen.items scr)
    end in
  let* _ := for_each items render_item in
  (* Shell triggers *)
  let* _ :=
    if display_shell_menu then
      let* _ := write EmptyString in
      let* s := get_self in
      (* Shell menu items *)
      if Nat.ltb 0 (size (shell_menu_items s)) then
        let* _ := write EmptyString in
        for_each (map_to_list (shell_menu_items s)).*2 render_item
      else M_ret tt
    else M_ret tt in
  write EmptyString.

Definition _prompt_prefix : M string :=
  let* s := get_self in
  let* i := attr_id (current_screen s) in
  M_ret (Str.replace "$s" i (prompt_prefix s)).

Definition stop : M unit := raise Exit.

(** The text written for a trigger that no menu item has. *)
Definition invalid_menu_item : string :=
  "Invalid menu item; type " +:+ Str.dquote +:+ "?" +:+ Str.dquote
    +:+ " for a list of available commands".

(* -- user input handling -------------------------------------------- *)

Section Run.

(** What the functions of the embedding application do when called. *)
Variable user : nat → list pyval → gmap string pyval → M unit.

(** [f()] for a callable that takes no argument besides [self]. *)
Definition nullary (body : M unit) (args : list pyval)
    (kwargs : gmap string pyval) : M unit :=
  match args with
  | [] => if bool_decide (kwargs = ∅) then body else raise TypeError
  | _ :: _ => raise TypeError
  end.

(** [func( *args, **kwargs)]: the arguments are bound to the
    parameters of the callee, then its body runs. *)
Definition call (func : callable) (args : list pyval)
    (kwargs : gmap string pyval) : M unit :=
  match func with
  | Fnoop => nullary (M_ret tt) args kwargs
  | Fhome => nullary home args kwargs
  | Fprevious => nullary previous args kwargs
  | Fclear_screen => nullary clear_screen args kwargs
  | Fstop => nullary stop args kwargs
  | Frender_menu =>
      match args with
      | [] =>
          if bool_decide (kwargs = ∅) then render_menu true
          else
            match kwargs !! "display_shell_menu" with
            | Some v =>
                if bool_decide (size kwargs = 1)
                then render_menu (truthy v)
                else raise TypeError
            | None => raise TypeError
            end
      | [v] =>
          if bool_decide (kwargs = ∅) then render_menu (truthy v)
          else raise TypeError
      | _ => raise TypeError
      end
  | Fuser n => user n args kwargs
  end.

(** [self.execute(func, *args, **kwargs)]: a keyword named like one
    of the two named parameters cannot be bound. *)
Definition execute (func : callable) (args : list pyval)
    (kwargs : gmap string pyval) : M unit :=
  if bool_decide (is_Some (kwargs !! "self") ∨ is_Some (kwargs !! "func"))
  then raise TypeError
  else
    let* _ := emit (EvCall func args kwargs) in
    call func args kwargs.

(** Lines 157 to 165: search the shell for the menu item first, then
    the current screen. *)
Definition find_item (trigger : string) : M (option MenuItem.t) :=
  let* s := get_self in
  match shell_menu_items s !! trigger with
  | Some item => M_ret (Some item)
  | None =>
      match current_screen s with
      | None => raise (AttributeError "item")
      | Some l => let* scr := deref l in M_ret (Screen.item scr trigger)
      end
  end.

(** Lines 173 to 178: what follows the call of the function.  [Exit]
    ends the loop; otherwise the menu is rendered if the shell is set
    to, and the loop goes on. *)
Definition after_call (exited : bool) : M flow :=
  if exited then M_ret Leave
  else
    let* s := get_self in
    let* _ := if auto_render_menu s then render_menu true else M_ret tt in
    M_ret Continue.

(** Lines 169 to 178: call the function of the menu item that was
    found. *)
Definition run_item (item : MenuItem.t) (command_args : list string) : M flow :=
  let args := MenuItem.args item ++ (VStr <$> command_args) in
  let* exited := catch_Exit (execute (MenuItem.func item) args (MenuItem.kwargs item)) in
  after_call exited.

(** One pass of the [while] loop, on what the read does. *)
Definition loop_body (r : read) : M flow :=
  (* Read the next input from the user *)
  let* p := _prompt_prefix in
  let* _ := emit (EvPrompt p) in
  match r with
  | EOFError | KeyboardInterrupt =>
      let* _ := write Str.newline in
      M_ret Leave
  | Input None => M_ret Continue
  | Input (Some input) =>
      (* Make sure the user entered something *)
      if bool_decide (Str.strip input = EmptyString) then M_ret Continue
      else
        match Str.split input with
        | [] => raise IndexError
        | trigger :: command_args =>
            let* item := find_item trigger in
            match item with
            | None =>
                let* _ := write invalid_menu_item in
                M_ret Continue
            | Some item => run_item item command_args
            end
        end
  end.

Fixpoint start (inputs : list read) : M ended :=
  match inputs with
  | [] =>
      let* p := _prompt_prefix in
      let* _ := emit (EvPrompt p) in
      M_ret Waiting
  | r :: rest =>
      let* f := loop_body r in
      match f with
      | Continue => start rest
      | Leave => M_ret (Returned rest)
      end
  end.

End Run.

End Shell.


(* ===================================================================== *)
(** ** Notions used to state the properties                               *)
(* ===================================================================== *)

(** Equality of menu items as the documentation of the shell describes
    it: the two items have the same set of trigger strings. *)
Definition same_trigger_set (x y : MenuItem.t) : Prop :=
  ∀ t, t ∈ seq_items (MenuItem.triggers x) ↔ t ∈ seq_items (MenuItem.triggers y).

(** The display list of a screen holds no two items that compare equal.
    It holds of a new screen and [Screen.add_menu_item] keeps it. *)
Definition Screen_inv (scr : Screen.t) : Prop :=
  NoDup (MenuItem.triggers <$> Screen.ordered_menu_items scr).

(** The state of a shell to which no screen has been added. *)
Definition no_screen (s : shell) : Prop :=
  home_screen s = None ∧ current_screen s = None ∧
  previous_screen s = None ∧ screens s = ∅.

(** The world after [ev] happened. *)
Definition after (w : World) (evs : list event) : World :=
  World_mk (heap w) (self w) (trace w ++ evs).

(** The text [transition] logs for an id it cannot use. *)
Definition log_nonexistent (to_screen_id : option string) : event :=
  EvLog ("Attempt to transition to non-existent screen ["
           +:+ str_of_id to_screen_id +:+ "]").

(** An id that [transition] cannot use: [None], or no key of [screens]. *)
Definition unregistered (s : shell) (to_screen_id : option string) : Prop :=
  match to_screen_id with
  | None => True
  | Some i => screens s !! i = None
  end.

(** The prompt shown while [scr] is the current screen. *)
Definition prompt_of (s : shell) (scr : Screen.t) : string :=
  Str.replace "$s" (Screen.id scr) (prompt_prefix s).

(** Every reference the shell holds points into the heap, every key of
    [screens] is the id of the screen it maps to, and the id of the home
    screen is a key of [screens].  It holds of a new shell, and
    [add_screen] and the navigation calls keep it. *)
Record shell_inv (w : World) : Prop := Shell_inv {
  inv_screens : ∀ i l, screens (self w) !! i = Some l →
                       ∃ scr, heap w !! l = Some scr ∧ Screen.id scr = i;
  inv_home : ∀ h, home_screen (self w) = Some h →
                  ∃ scr, heap w !! h = Some scr ∧
                         is_Some (screens (self w) !! Screen.id scr);
  inv_current : ∀ c, current_screen (self w) = Some c → is_Some (heap w !! c);
  inv_previous : ∀ p, previous_screen (self w) = Some p → is_Some (heap w !! p)
}.

(** [for item in items: scr.add_menu_item(item)]: a run of registrations
    on one screen. *)
Fixpoint add_menu_items (scr : Screen.t) (items : list MenuItem.t)
  : result Screen.t :=
  match items with
  | [] => Ok scr
  | x :: rest =>
      scr' ← Screen.add_menu_item scr (Some x);
      add_menu_items scr' rest
  end.

(** [for item in items: shell.add_menu_item(item)] *)
Fixpoint shell_add_menu_items (s : shell) (items : list MenuItem.t)
  : result shell :=
  match items with
  | [] => Ok s
  | x :: rest =>
      s' ← Shell.add_menu_item s (Some x);
      shell_add_menu_items s' rest
  end.

(** [t] is one of the triggers of [x]. *)
Definition has_trigger (t : string) (x : MenuItem.t) : Prop :=
  t ∈ seq_items (MenuItem.triggers x).

(** [x] is the last item of [l] that has the trigger [t]. *)
Definition last_with_trigger (t : string) (l : list MenuItem.t) (x : MenuItem.t)
  : Prop :=
  ∃ l1 l2, l = l1 ++ x :: l2 ∧ has_trigger t x ∧ ∀ y, y ∈ l2 → ¬ has_trigger t y.

(** [x] is the first item of [l] with its [triggers]. *)
Definition first_with_triggers (l : list MenuItem.t) (x : MenuItem.t) : Prop :=
  ∃ l1 l2, l = l1 ++ x :: l2 ∧
           ∀ y, y ∈ l1 → MenuItem.triggers y ≠ MenuItem.triggers x.

(** On the world [w], whose current screen is [scr], the line [input]
    selects the menu item [item] and leaves it the tokens
    [command_args]. *)
Definition selects (w : World) (scr : Screen.t) (input : string)
    (item : MenuItem.t) (command_args : list string) : Prop :=
  ∃ l trigger,
    current_screen (self w) = Some l ∧
    heap w !! l = Some scr ∧
    Str.split input = trigger :: command_args ∧
    Shell.find_item trigger w = Val (Some item) w ∧
    MenuItem.kwargs item !! "self" = None ∧
    MenuItem.kwargs item !! "func" = None.

(** The positional arguments the function of [item] is called with. *)
Definition call_args (item : MenuItem.t) (command_args : list string)
  : list pyval :=
  MenuItem.args item ++ (VStr <$> command_args).

(** The world in which the function of [item] starts to run: the prompt
    has been shown and the call is recorded. *)
Definition at_call (w : World) (scr : Screen.t) (item : MenuItem.t)
    (command_args : list string) : World :=
  after w [EvPrompt (prompt_of (self w) scr);
           EvCall (MenuItem.func item) (call_args item command_args)
                  (MenuItem.kwargs item)].

(** The callables that take no argument. *)
Definition takes_no_argument (f : callable) : Prop :=
  f ∈ [Fnoop; Fhome; Fprevious; Fclear_screen; Fstop].

(** Sample objects. *)
Module Sample.

(** Two items with the triggers [a] and [b], listed in the two orders. *)
Definition reorder : result (MenuItem.t * MenuItem.t * Screen.t * Screen.t) :=
  old ← MenuItem.__init__ (TrList ["a"; "b"]) "old" (Some Fnoop) [] ∅;
  new ← MenuItem.__init__ (TrList ["b"; "a"]) "new" (Some (Fuser 0)) [] ∅;
  scr ← Screen.__init__ (Some "main");
  scr1 ← Screen.add_menu_item scr (Some old);
  scr2 ← Screen.add_menu_item scr1 (Some new);
  Ok (old, new, scr1, scr2).

Definition item_old : MenuItem.t :=
  MenuItem.mk (PySeq PyList ["a"; "b"]) "old" Fnoop [] ∅.
Definition item_new : MenuItem.t :=
  MenuItem.mk (PySeq PyList ["a"; "b"]) "new" (Fuser 0) [VInt 1] ∅.
Definition item_ba : MenuItem.t :=
  MenuItem.mk (PySeq PyList ["b"; "a"]) "new" (Fuser 0) [] ∅.
Definition screen_old : Screen.t :=
  Screen.mk "main" (register item_old ∅ ["a"; "b"]) [item_old].


(** A shell as [Shell()] builds it, in a world with no screen. *)
Definition shell0 : shell :=
  match Shell.__init__ false true with
  | Ok s => s
  | Err _ => Shell_mk None None None ∅ false EmptyString ∅
  end.
Definition world0 : World := World_mk ∅ shell0 [].

(** Two screens are made with the id [a] and added in turn, the second
    one without [is_home]. *)
Definition replace_home : M (loc * loc) :=
  let* s1 := new_Screen (Some "a") in
  let* _ := Shell.add_screen (Some s1) false in
  let* s2 := new_Screen (Some "a") in
  let* _ := Shell.add_screen (Some s2) false in
  M_ret (s1, s2).

(** Two screens [main] and [other]. *)
Definition screen_main : Screen.t := Screen.mk "main" ∅ [].
Definition screen_other : Screen.t := Screen.mk "other" ∅ [].
Definition heap2 : gmap loc Screen.t := <[1 := screen_other]> (<[0 := screen_main]> ∅).
Definition world2 : World := World_mk heap2 shell0 [].

(** [main] has been added to the shell: it is the home screen. *)
Definition world_home : World :=
  World_mk heap2
    (set_screens {["main" := 0]}
       (set_current_screen (Some 0) (set_home_screen (Some 0) shell0))) [].


(** The screen [main] holds one item, with the trigger [x] and a bound
    argument; it is the current and home screen of the shell. *)
Definition item_x : MenuItem.t :=
  MenuItem.mk (PySeq PyList ["x"]) "an item" (Fuser 0) [VInt 1] ∅.
Definition screen_x : Screen.t :=
  Screen.mk "main" {["x" := item_x]} [item_x].
Definition world_x : World :=
  World_mk {[0 := screen_x]}
    (set_screens {["main" := 0]}
       (set_current_screen (Some 0) (set_home_screen (Some 0) shell0))) [].

(** On [world_x] the trigger [q] is registered on the screen as well. *)
Definition item_q : MenuItem.t :=
  MenuItem.mk (PySeq PyList ["q"]) "local q" (Fuser 1) [] ∅.
Definition screen_q : Screen.t :=
  Screen.mk "main" {["q" := item_q]} [item_q].
Definition world_q : World :=
  World_mk {[0 := screen_q]}
    (set_screens {["main" := 0]}
       (set_current_screen (Some 0) (set_home_screen (Some 0) shell0))) [].
Definition item_quit : MenuItem.t :=
  MenuItem.mk (PySeq PyList ["q"; "quit"; "exit"]) "exit" Fstop [] ∅.

(** Application functions: number 0 returns, number 1 stops the shell,
    the others fail. *)
Definition user1 : nat → list pyval → gmap string pyval → M unit :=
  λ n _ _,
    match n with
    | 0 => M_ret tt
    | 1 => raise Exit
    | _ => raise (UserError n)
    end.
Definition item_e : MenuItem.t :=
  MenuItem.mk (PySeq PyList ["e"]) "leave" (Fuser 1) [] ∅.
Definition item_f : MenuItem.t :=
  MenuItem.mk (PySeq PyList ["f"]) "fail" (Fuser 2) [] ∅.
Definition screen_u : Screen.t :=
  Screen.mk "main" (<["f" := item_f]> (<["e" := item_e]> {["x" := item_x]}))
            [item_x; item_e; item_f].
Definition shell_u (auto : bool) : shell :=
  Shell_mk (Some 0) (Some 0) None {["main" := 0]} auto "($s) => "
           (shell_menu_items shell0).
Definition world_u (auto : bool) : World :=
  World_mk {[0 := screen_u]} (shell_u auto) [].

(** Application functions that do nothing. *)
Definition user0 : nat → list pyval → gmap string pyval → M unit :=
  λ _ _ _, M_ret tt.

End Sample.
(* ===================================================================== *)
(** ** Facts about the string helpers                                     *)
(* ===================================================================== *)

Module StrFacts.
Import Str.

Lemma lstrip_all_space s : lstrip s = EmptyString ↔ all_space s = true.
Proof.
  induction s as [|c s IH]; simpl; [done|].
  destruct (isspace c); simpl; [done|]. split; discriminate.
Qed.

Lemma lstrip_head s c s' : lstrip s = String c s' → isspace c = false.
Proof.
  induction s as [|d s IH]; simpl; [discriminate|].
  destruct (isspace d) eqn:Hd; [done|]. intros [= -> _]. done.
Qed.

Lemma rstrip_head c s : isspace c = false → rstrip (String c s) ≠ EmptyString.
Proof. intros Hc. simpl. rewrite Hc. destruct (rstrip s); discriminate. Qed.

Lemma strip_all_space s : strip s = EmptyString ↔ all_space s = true.
Proof.
  unfold strip. rewrite <- lstrip_all_space.
  destruct (lstrip s) as [|c s'] eqn:Hl; [done|].
  split; [|discriminate]. intros Hr. exfalso.
  eapply rstrip_head; [|exact Hr]. eapply lstrip_head; eauto.
Qed.

Lemma split_from_cur cur s : cur ≠ EmptyString → split_from cur s ≠ [].
Proof.
  revert cur. induction s as [|c s IH]; intros cur Hcur; simpl.
  - destruct cur; [done|discriminate].
  - destruct (isspace c).
    + destruct cur; [done|discriminate].
    + apply IH. destruct cur; discriminate.
Qed.

Lemma split_all_space s : split s = [] ↔ all_space s = true.
Proof.
  unfold split. induction s as [|c s IH]; simpl; [done|].
  destruct (isspace c); simpl; [done|].
  split; [|discriminate]. intros H. exfalso.
  eapply split_from_cur; [|exact H]. discriminate.
Qed.

(** A line passes the blank test of [start] exactly when [split] finds
    a token in it, so [input.split()[0]] never raises. *)
Lemma strip_empty_iff_split_nil s : strip s = EmptyString ↔ split s = [].
Proof. by rewrite strip_all_space, split_all_space. Qed.

Lemma ljust_length w s :
  (String.length s ≤ w)%nat → String.length (ljust w s) = w.
Proof.
  intros H. unfold ljust.
  assert (Ha : ∀ a b, String.length (a +:+ b) = (String.length a + String.length b)%nat).
  { induction a as [|c a IH]; intros b; simpl; [done|]. by rewrite IH. }
  assert (Hs : ∀ n, String.length (spaces n) = n).
  { induction n; simpl; congruence. }
  rewrite Ha, Hs. lia.
Qed.

End StrFacts.

(* ===================================================================== *)
(** ** Facts about registration in a trigger map                          *)
(* ===================================================================== *)

Section Register.
Context {V : Type}.

Lemma register_lookup_in (v : V) (m : gmap string V) (triggers : list string) t :
  t ∈ triggers → register v m triggers !! t = Some v.
Proof.
  unfold register. revert m.
  induction triggers as [|k ks IH] using rev_ind; intros m Hin.
  - by apply elem_of_nil in Hin.
  - rewrite foldl_app. simpl. apply elem_of_app in Hin as [Hin|Hin].
    + destruct (decide (k = t)) as [->|Hne].
      * apply lookup_insert_eq.
      * rewrite lookup_insert_ne by done. by apply IH.
    + apply list_elem_of_singleton in Hin as ->. apply lookup_insert_eq.
Qed.

Lemma register_lookup_notin (v : V) (m : gmap string V) (triggers : list string) t :
  t ∉ triggers → register v m triggers !! t = m !! t.
Proof.
  unfold register. revert m.
  induction triggers as [|k ks IH]; intros m Hnin; simpl; [done|].
  apply not_elem_of_cons in Hnin as [Hne Hnin].
  rewrite IH by done. by apply lookup_insert_ne.
Qed.

End Register.

(* ===================================================================== *)
(** ** MenuItem: equality                                                 *)
(* ===================================================================== *)

Lemma MenuItem_eq_spec x y :
  MenuItem.__eq__ x y = true ↔ MenuItem.triggers x = MenuItem.triggers y.
Proof. unfold MenuItem.__eq__. apply bool_decide_eq_true. Qed.

Lemma MenuItem_eq_refl x : MenuItem.__eq__ x x = true.
Proof. by apply MenuItem_eq_spec. Qed.

(** An item built by [__init__] binds no keyword that [Shell.execute]
    takes as a named parameter. *)
Lemma MenuItem_init_kwargs tr d f a k item :
  MenuItem.__init__ tr d f a k = Ok item →
  MenuItem.kwargs item = k ∧ k !! "self" = None ∧ k !! "func" = None.
Proof.
  unfold MenuItem.__init__. case_bool_decide as Hex; [discriminate|].
  intros Hinit.
  assert (Hk : MenuItem.kwargs item = k).
  { destruct tr, f; simplify_eq; done. }
  split; [done|].
  split; apply eq_None_not_Some; intros Hs; apply Hex;
    unfold MenuItem.init_params; rewrite !Exists_cons; auto.
Qed.

(** C3, as stated, fails: the items with triggers [a; b] and [b; a] have
    the same set of triggers and yet do not compare equal. *)
Lemma eq_same_set_other_order :
  same_trigger_set Sample.item_old Sample.item_ba ∧
  MenuItem.__eq__ Sample.item_old Sample.item_ba = false.
Proof.
  split; [|by vm_compute].
  intros t. unfold Sample.item_old, Sample.item_ba. simpl.
  rewrite !elem_of_cons, !elem_of_nil. tauto.
Qed.

(** C3, amended: two menu items compare equal exactly when their
    [triggers] are the same Python sequence, that is the same kind (list
    or tuple) holding the same strings in the same order; descriptions,
    handlers and bound arguments play no part.  Equal items have the same
    set of triggers. *)
Theorem MenuItem_eq_same_sequence :
  (∀ x y,
     MenuItem.__eq__ x y = true ↔
     seq_kind_of (MenuItem.triggers x) = seq_kind_of (MenuItem.triggers y) ∧
     seq_items (MenuItem.triggers x) = seq_items (MenuItem.triggers y)) ∧
  (∀ tx ty d1 f1 a1 k1 d2 f2 a2 k2 d1' f1' a1' k1' d2' f2' a2' k2',
     MenuItem.__eq__ (MenuItem.mk tx d1 f1 a1 k1) (MenuItem.mk ty d2 f2 a2 k2) =
     MenuItem.__eq__ (MenuItem.mk tx d1' f1' a1' k1') (MenuItem.mk ty d2' f2' a2' k2')) ∧
  (∀ x y, MenuItem.__eq__ x y = true → same_trigger_set x y).
Proof.
  split; [|split].
  - intros x y. rewrite MenuItem_eq_spec.
    destruct (MenuItem.triggers x) as [kx lx], (MenuItem.triggers y) as [ky ly].
    simpl. split; [by intros [= -> ->]|by intros [-> ->]].
  - done.
  - intros x y Heq%MenuItem_eq_spec t. by rewrite Heq.
Qed.

(* ===================================================================== *)
(** ** Screen: registration and the display list                          *)
(* ===================================================================== *)

Lemma contains_spec l x :
  Screen.contains l x = true ↔
  ∃ y, y ∈ l ∧ MenuItem.triggers y = MenuItem.triggers x.
Proof.
  unfold Screen.contains. rewrite existsb_exists. split.
  - intros (y & Hin & Heq). exists y. split; [by apply list_elem_of_In|].
    by apply MenuItem_eq_spec.
  - intros (y & Hin & Heq). exists y. split; [by apply list_elem_of_In|].
    by apply MenuItem_eq_spec.
Qed.

Lemma contains_triggers l x :
  Screen.contains l x = true ↔ MenuItem.triggers x ∈ MenuItem.triggers <$> l.
Proof.
  rewrite contains_spec, list_elem_of_fmap. split.
  - intros (y & Hin & Heq). eauto.
  - intros (y & Heq & Hin). eauto.
Qed.

Lemma Screen_init_inv i scr : Screen.__init__ i = Ok scr → Screen_inv scr.
Proof. destruct i; simpl; intros [= <-]. apply NoDup_nil_2. Qed.

Lemma Screen_add_inv scr item scr' :
  Screen_inv scr → Screen.add_menu_item scr item = Ok scr' → Screen_inv scr'.
Proof.
  unfold Screen_inv, Screen.add_menu_item. intros Hinv.
  destruct item as [item|]; [|discriminate]. intros [= <-]. simpl.
  destruct (Screen.contains _ item) eqn:Hc; simpl; [done|].
  rewrite fmap_app. simpl. apply NoDup_app. split; [done|]. split.
  - intros t Ht ->%list_elem_of_singleton.
    apply contains_triggers in Ht. congruence.
  - apply NoDup_singleton.
Qed.

(** Registering an item never fails and makes every one of its triggers
    resolve to it; other triggers resolve as before. *)
Lemma Screen_add_lookup scr item :
  ∃ scr', Screen.add_menu_item scr (Some item) = Ok scr' ∧
    Screen.id scr' = Screen.id scr ∧
    (∀ t, t ∈ seq_items (MenuItem.triggers item) → Screen.item scr' t = Some item) ∧
    (∀ t, t ∉ seq_items (MenuItem.triggers item) → Screen.item scr' t = Screen.item scr t).
Proof.
  eexists. split; [reflexivity|]. split; [done|]. unfold Screen.item. simpl.
  split; intros t Ht.
  - by apply register_lookup_in.
  - by apply register_lookup_notin.
Qed.

(** In a list without two entries of the same key, the entries that
    share the key of a member are that member alone. *)
Lemma filter_key_NoDup {A K} `{EqDecision K} (f : A → K) (l : list A) (x : A) :
  NoDup (f <$> l) → x ∈ l → filter (λ y, f y = f x) l = [x].
Proof.
  induction l as [|a l IH]; intros Hnd Hin; [by apply elem_of_nil in Hin|].
  rewrite fmap_cons in Hnd. apply NoDup_cons in Hnd as [Hna Hnd].
  assert (Hnone : ∀ z l', f z ∉ f <$> l' → filter (λ y, f y = f z) l' = []).
  { intros z l'. induction l' as [|b l' IHl']; intros Hz; [done|].
    rewrite fmap_cons in Hz. apply not_elem_of_cons in Hz as [Hzb Hz].
    rewrite filter_cons_False by congruence. by apply IHl'. }
  apply elem_of_cons in Hin as [->|Hin].
  - rewrite filter_cons_True by done. f_equal. by apply Hnone.
  - rewrite filter_cons_False.
    + by apply IH.
    + intros Heq. apply Hna. rewrite Heq. by apply list_elem_of_fmap_2.
Qed.

(** Adding an item whose [triggers] equal those of a displayed item
    leaves the display list alone. *)
Lemma Screen_add_displayed scr old new scr' :
  old ∈ Screen.items scr →
  MenuItem.triggers new = MenuItem.triggers old →
  Screen.add_menu_item scr (Some new) = Ok scr' →
  Screen.items scr' = Screen.items scr.
Proof.
  intros Hold Htr Hadd.
  unfold Screen.add_menu_item in Hadd. injection Hadd as <-.
  unfold Screen.items in *. simpl.
  assert (Hc : Screen.contains (Screen.ordered_menu_items scr) new = true).
  { apply contains_spec. eauto. }
  by rewrite Hc.
Qed.

(** C7, as stated, fails: after the item with triggers [a; b], the item
    with triggers [b; a] has the same trigger set and yet gets a display
    entry of its own. *)
Lemma readd_other_order_adds_entry :
  ∃ old new scr1 scr2,
    Sample.reorder = Ok (old, new, scr1, scr2) ∧
    same_trigger_set old new ∧
    Screen.items scr1 = [old] ∧
    Screen.items scr2 = [old; new].
Proof.
  do 4 eexists. split; [by vm_compute|]. split; [|done].
  intros t. simpl. rewrite !elem_of_cons, !elem_of_nil. tauto.
Qed.

(** C7, amended: on a screen whose display list holds an item, adding a
    second item whose [triggers] are the same sequence (same kind, same
    strings, same order), whatever its description and handler, makes the
    lookup of each of these triggers return the added item, and leaves
    the display list as it was: it holds exactly one item with these
    triggers. *)
Theorem readd_same_triggers scr old new :
  Screen_inv scr →
  old ∈ Screen.items scr →
  MenuItem.triggers new = MenuItem.triggers old →
  ∃ scr', Screen.add_menu_item scr (Some new) = Ok scr' ∧
    (∀ t, t ∈ seq_items (MenuItem.triggers new) → Screen.item scr' t = Some new) ∧
    Screen.items scr' = Screen.items scr ∧
    length (filter (λ y, MenuItem.triggers y = MenuItem.triggers new)
                   (Screen.items scr')) = 1.
Proof.
  intros Hinv Hold Htr.
  destruct (Screen_add_lookup scr new) as (scr' & Hadd & _ & Hin & _).
  exists scr'. split; [done|]. split; [done|].
  pose proof (Screen_add_displayed _ _ _ _ Hold Htr Hadd) as Hitems.
  split; [done|]. rewrite Hitems, Htr.
  unfold Screen.items in *.
  by rewrite (filter_key_NoDup MenuItem.triggers _ old).
Qed.

Lemma readd_same_triggers_witness :
  ∃ scr', Screen.add_menu_item Sample.screen_old (Some Sample.item_new) = Ok scr' ∧
    (∀ t, t ∈ ["a"; "b"] → Screen.item scr' t = Some Sample.item_new) ∧
    Screen.items scr' = [Sample.item_old] ∧
    length (filter (λ y, MenuItem.triggers y = PySeq PyList ["a"; "b"])
                   (Screen.items scr')) = 1.
Proof.
  apply (readd_same_triggers Sample.screen_old Sample.item_old Sample.item_new).
  - unfold Screen_inv. simpl. apply NoDup_singleton.
  - simpl. apply list_elem_of_singleton. reflexivity.
  - reflexivity.
Defined.

(** C10, as stated, fails: the item with triggers [b; a] has the trigger
    set of the registered item with triggers [a; b], and after it is
    registered the display sequence does hold it. *)
Lemma readd_other_order_displayed :
  ∃ old new scr1 scr2,
    Sample.reorder = Ok (old, new, scr1, scr2) ∧
    same_trigger_set old new ∧
    old ∈ Screen.items scr1 ∧
    new ∈ Screen.items scr2.
Proof.
  do 4 eexists. split; [by vm_compute|]. split; [|split].
  - intros t. simpl. rewrite !elem_of_cons, !elem_of_nil. tauto.
  - simpl. apply list_elem_of_singleton. reflexivity.
  - simpl. rewrite !elem_of_cons. auto.
Qed.

(** C10, amended: after registering on a screen another menu item whose
    [triggers] are the same sequence as those of an item of the display
    list, [items()] still holds that original item and not the one just
    registered, while [item(trigger)] returns the new one for each of the
    triggers: the display entry and the lookup result are different
    items. *)
Theorem readd_display_keeps_original scr old new :
  Screen_inv scr →
  old ∈ Screen.items scr →
  MenuItem.triggers new = MenuItem.triggers old →
  new ≠ old →
  ∃ scr', Screen.add_menu_item scr (Some new) = Ok scr' ∧
    old ∈ Screen.items scr' ∧
    (new ∉ Screen.items scr') ∧
    (∀ t, t ∈ seq_items (MenuItem.triggers new) →
          Screen.item scr' t = Some new ∧ Screen.item scr' t ≠ Some old).
Proof.
  intros Hinv Hold Htr Hne.
  destruct (Screen_add_lookup scr new) as (scr' & Hadd & _ & Hlook & _).
  pose proof (Screen_add_displayed _ _ _ _ Hold Htr Hadd) as Hitems.
  exists scr'. split; [done|]. rewrite Hitems. split; [done|]. split.
  - intros Hnew. unfold Screen.items in *.
    pose proof (filter_key_NoDup MenuItem.triggers _ old Hinv Hold) as Hf.
    assert (Hin : new ∈ filter (λ y, MenuItem.triggers y = MenuItem.triggers old)
                               (Screen.ordered_menu_items scr)).
    { by apply list_elem_of_filter. }
    rewrite Hf in Hin. by apply list_elem_of_singleton in Hin.
  - intros t Ht. rewrite (Hlook t Ht). split; [done|congruence].
Qed.

Lemma readd_display_keeps_original_witness :
  ∃ scr', Screen.add_menu_item Sample.screen_old (Some Sample.item_new) = Ok scr' ∧
    Sample.item_old ∈ Screen.items scr' ∧
    (Sample.item_new ∉ Screen.items scr') ∧
    (∀ t, t ∈ ["a"; "b"] →
          Screen.item scr' t = Some Sample.item_new ∧
          Screen.item scr' t ≠ Some Sample.item_old).
Proof.
  apply (readd_display_keeps_original Sample.screen_old Sample.item_old Sample.item_new).
  - unfold Screen_inv. simpl. apply NoDup_singleton.
  - simpl. apply list_elem_of_singleton. reflexivity.
  - reflexivity.
  - discriminate.
Defined.

(* ===================================================================== *)
(** ** Shell: construction and screens                                    *)
(* ===================================================================== *)

(** Unfold the plumbing of the world monad. *)
Ltac munfold :=
  repeat progress
    (unfold M_bind, M_ret, get_self, modify_self, emit, raise, lift, deref,
       attr_id, Shell.write, after, set_home_screen, set_current_screen,
       set_previous_screen, set_screens, set_shell_menu_items;
     cbn beta iota).

Lemma Shell_init_no_screen a i s : Shell.__init__ a i = Ok s → no_screen s.
Proof.
  destruct a, i; vm_compute; intros [= <-]; repeat split.
Qed.

Lemma Shell_init_ok a i : ∃ s, Shell.__init__ a i = Ok s.
Proof. destruct a, i; eexists; vm_compute; reflexivity. Qed.

Lemma add_screen_spec w l scr is_home :
  heap w !! l = Some scr →
  Shell.add_screen (Some l) is_home w =
  Val tt (World_mk (heap w)
            (Shell_mk
               (if is_home || bool_decide (home_screen (self w) = None)
                then Some l else home_screen (self w))
               (match current_screen (self w) with
                | None => Some l
                | Some c => Some c
                end)
               (previous_screen (self w))
               (<[Screen.id scr := l]> (screens (self w)))
               (auto_render_menu (self w)) (prompt_prefix (self w))
               (shell_menu_items (self w)))
            (trace w)).
Proof.
  intros Hl. unfold Shell.add_screen. munfold. rewrite Hl. simpl.
  destruct (current_screen (self w)) as [c|]; simpl;
    destruct (is_home || bool_decide (home_screen (self w) = None)); reflexivity.
Qed.

(** C4: on a fresh shell, after [add_screen(s1)] and [add_screen(s2)] the
    current screen is [s1]; the home screen is [s1], or [s2] if the
    second call passed [is_home].  In general a call of [add_screen]
    returns, makes its screen the current one when there is none, makes
    it the home screen when there is none, and otherwise changes the
    home screen only when [is_home] is set. *)
Theorem add_screen_current_and_home :
  (∀ a i w s1 s2 scr1 scr2 is_home1 is_home2,
     Shell.__init__ a i = Ok (self w) →
     heap w !! s1 = Some scr1 →
     heap w !! s2 = Some scr2 →
     ∃ w', (let* _ := Shell.add_screen (Some s1) is_home1 in
            Shell.add_screen (Some s2) is_home2) w = Val tt w' ∧
           current_screen (self w') = Some s1 ∧
           home_screen (self w') = (if is_home2 then Some s2 else Some s1)) ∧
  (∀ w l scr is_home,
     heap w !! l = Some scr →
     ∃ w', Shell.add_screen (Some l) is_home w = Val tt w' ∧
           current_screen (self w') =
             (if current_screen (self w) is Some c then Some c else Some l) ∧
           home_screen (self w') =
             (if home_screen (self w) is Some h
              then (if is_home then Some l else Some h) else Some l)).
Proof.
  split.
  - intros a i w s1 s2 scr1 scr2 h1 h2 Hinit H1 H2.
    apply Shell_init_no_screen in Hinit as (Hh & Hc & _ & _).
    unfold M_bind. rewrite (add_screen_spec _ _ _ _ H1).
    rewrite (add_screen_spec _ _ scr2) by done. simpl.
    eexists. split; [reflexivity|]. simpl. rewrite Hh, Hc. simpl.
    rewrite orb_true_r. simpl. destruct h2; done.
  - intros w l scr h Hl. rewrite (add_screen_spec _ _ _ _ Hl).
    eexists. split; [reflexivity|]. simpl. split; [done|].
    destruct (home_screen (self w)), h; done.
Qed.

Lemma add_screen_current_and_home_witness :
  ∃ w', (let* _ := Shell.add_screen (Some 0) false in
         Shell.add_screen (Some 1) true) Sample.world2 = Val tt w' ∧
        current_screen (self w') = Some 0 ∧
        home_screen (self w') = Some 1.
Proof.
  apply (proj1 add_screen_current_and_home false true Sample.world2 0 1
           Sample.screen_main Sample.screen_other false true).
  - vm_compute. reflexivity.
  - vm_compute. reflexivity.
  - vm_compute. reflexivity.
Defined.

(* ===================================================================== *)
(** ** Shell: navigation                                                  *)
(* ===================================================================== *)

(** What [transition] does with an id it cannot use: it logs, then goes
    on with [self.home_screen.id]. *)
Lemma transition_unregistered w to_id :
  unregistered (self w) to_id →
  Shell.transition to_id w =
  (let* i := attr_id (home_screen (self w)) in
   let* _ := modify_self (λ s, set_previous_screen (current_screen s) s) in
   let* s := get_self in
   match screens s !! i with
   | None => raise (KeyError i)
   | Some l => modify_self (set_current_screen (Some l))
   end) (after w [log_nonexistent to_id]).
Proof.
  intros Hun. unfold Shell.transition, log_nonexistent.
  destruct to_id as [i|]; simpl in Hun.
  - munfold. rewrite Hun. rewrite bool_decide_eq_false_2; [reflexivity|].
    by intros [? [=]].
  - munfold. reflexivity.
Qed.

(** A registered id is used as it is. *)
Lemma transition_registered w i l :
  screens (self w) !! i = Some l →
  Shell.transition (Some i) w =
  Val tt (World_mk (heap w)
            (set_current_screen (Some l)
               (set_previous_screen (current_screen (self w)) (self w)))
            (trace w)).
Proof.
  intros Hi. unfold Shell.transition. munfold. rewrite Hi.
  rewrite bool_decide_eq_true_2 by eauto. simpl. rewrite Hi. reflexivity.
Qed.

(** C5, as stated, fails: when the id of the home screen has been
    registered again for another screen, [transition] with an unknown id
    does not make the home screen current. *)
Lemma transition_unknown_after_replacement :
  ∃ s1 s2 w w',
    Sample.replace_home Sample.world0 = Val (s1, s2) w ∧
    home_screen (self w) = Some s1 ∧
    unregistered (self w) (Some "nonexistent") ∧
    Shell.transition (Some "nonexistent") w = Val tt w' ∧
    current_screen (self w') = Some s2 ∧
    current_screen (self w') ≠ home_screen (self w').
Proof.
  do 4 eexists. split; [by vm_compute|].
  split; [reflexivity|]. split; [by vm_compute|].
  split; [by vm_compute|]. split; [reflexivity|]. discriminate.
Qed.

(** C5, amended: for every shell whose home screen is set and is the
    screen registered under its own id, [transition] with an id that is
    [None] or not registered raises nothing: it logs an error, then sets
    the previous screen to the screen that was current and the current
    screen to the home screen. *)
Theorem transition_unknown_goes_home w to_id h scr :
  home_screen (self w) = Some h →
  heap w !! h = Some scr →
  screens (self w) !! Screen.id scr = Some h →
  unregistered (self w) to_id →
  ∃ w', Shell.transition to_id w = Val tt w' ∧
        current_screen (self w') = home_screen (self w) ∧
        previous_screen (self w') = current_screen (self w) ∧
        home_screen (self w') = home_screen (self w) ∧
        screens (self w') = screens (self w) ∧
        heap w' = heap w ∧
        trace w' = trace w ++ [log_nonexistent to_id].
Proof.
  intros Hh Hscr Hreg Hun. rewrite transition_unregistered by done.
  munfold. simpl. rewrite Hh. simpl. rewrite Hscr. simpl. rewrite Hreg.
  eexists. split; [reflexivity|]. simpl. by rewrite Hh.
Qed.

Lemma transition_unknown_goes_home_witness :
  ∃ w', Shell.transition (Some "nonexistent") Sample.world_home = Val tt w' ∧
        current_screen (self w') = Some 0 ∧
        previous_screen (self w') = Some 0 ∧
        home_screen (self w') = Some 0 ∧
        screens (self w') = {["main" := 0]} ∧
        heap w' = Sample.heap2 ∧
        trace w' = [log_nonexistent (Some "nonexistent")].
Proof.
  refine (transition_unknown_goes_home Sample.world_home
            (Some "nonexistent") 0 Sample.screen_main _ _ _ _).
  - reflexivity.
  - vm_compute. reflexivity.
  - vm_compute. reflexivity.
  - vm_compute. reflexivity.
Defined.

(** C9: on a shell to which no screen has been added, [home()],
    [previous()] and [transition(id)] for any id raise [AttributeError]
    (the [id] of the home screen, which is [None], is read); nothing
    handles it, and the attributes of the shell stay as they were. *)
Theorem navigation_without_screen_raises w :
  no_screen (self w) →
  Shell.home w = Exc (AttributeError "id") w ∧
  Shell.previous w = Exc (AttributeError "id") w ∧
  (∀ to_id, Shell.transition to_id w =
            Exc (AttributeError "id") (after w [log_nonexistent to_id])).
Proof.
  intros (Hh & Hc & Hp & Hs).
  assert (Hhome : Shell.home w = Exc (AttributeError "id") w).
  { unfold Shell.home. munfold. rewrite Hh. reflexivity. }
  split; [done|]. split.
  - unfold Shell.previous. munfold. by rewrite Hp.
  - intros to_id. rewrite transition_unregistered.
    + munfold. simpl. rewrite Hh. reflexivity.
    + destruct to_id; simpl; [|done]. by rewrite Hs.
Qed.

Lemma navigation_without_screen_raises_witness :
  Shell.home Sample.world0 = Exc (AttributeError "id") Sample.world0 ∧
  Shell.previous Sample.world0 = Exc (AttributeError "id") Sample.world0 ∧
  (∀ to_id, Shell.transition to_id Sample.world0 =
            Exc (AttributeError "id") (after Sample.world0 [log_nonexistent to_id])).
Proof.
  apply (navigation_without_screen_raises Sample.world0).
  vm_compute. repeat split; reflexivity.
Defined.

(** *** The references of the shell stay valid *)

Lemma shell_inv_no_screen w : no_screen (self w) → shell_inv w.
Proof.
  intros (Hh & Hc & Hp & Hs). split.
  - intros i l. by rewrite Hs, lookup_empty.
  - intros h. by rewrite Hh.
  - intros c. by rewrite Hc.
  - intros p. by rewrite Hp.
Qed.

Lemma shell_inv_add_screen w l scr is_home w' :
  shell_inv w →
  heap w !! l = Some scr →
  Shell.add_screen (Some l) is_home w = Val tt w' →
  shell_inv w'.
Proof.
  intros [Hs Hh Hc Hp] Hl. rewrite (add_screen_spec _ _ _ _ Hl).
  intros [= <-]. split; simpl.
  - intros i l'. rewrite lookup_insert. case_decide as Hi.
    + intros [= <-]. eauto.
    + apply Hs.
  - intros h Hhome.
    assert (Hreg : ∀ scr', is_Some (screens (self w) !! Screen.id scr') →
                   is_Some (<[Screen.id scr := l]> (screens (self w)) !! Screen.id scr')).
    { intros scr' Hk. rewrite lookup_insert. case_decide; eauto. }
    destruct (is_home || bool_decide (home_screen (self w) = None)).
    + injection Hhome as <-. exists scr. split; [done|].
      rewrite lookup_insert_eq. eauto.
    + destruct (Hh h Hhome) as (scr' & Hscr' & Hk). eauto.
  - intros c. destruct (current_screen (self w)) as [c'|] eqn:Hcur.
    + intros [= <-]. eauto.
    + intros [= <-]. eauto.
  - apply Hp.
Qed.

(** With a home screen set, [transition] returns whatever id it is
    given, and keeps the references valid. *)
Lemma transition_returns w to_id h :
  shell_inv w →
  home_screen (self w) = Some h →
  ∃ w', Shell.transition to_id w = Val tt w' ∧ shell_inv w' ∧
        previous_screen (self w') = current_screen (self w) ∧
        home_screen (self w') = Some h.
Proof.
  intros [Hs Hh Hc Hp] Hhome.
  assert (Hdone : ∀ l tr, is_Some (heap w !! l) →
    shell_inv (World_mk (heap w)
                 (set_current_screen (Some l)
                    (set_previous_screen (current_screen (self w)) (self w))) tr)).
  { intros l tr Hl. split; simpl; auto. by intros c [= <-]. }
  destruct (Hh h Hhome) as (scr & Hscr & [l Hl]).
  assert (Hfall : unregistered (self w) to_id →
    Shell.transition to_id w =
    Val tt (World_mk (heap w)
              (set_current_screen (Some l)
                 (set_previous_screen (current_screen (self w)) (self w)))
              (trace w ++ [log_nonexistent to_id]))).
  { intros Hun. rewrite transition_unregistered by done.
    munfold. simpl. rewrite Hhome. simpl. rewrite Hscr. simpl. rewrite Hl.
    simpl. by rewrite ?Hhome. }
  assert (Hheap : is_Some (heap w !! l)).
  { destruct (Hs _ _ Hl) as (? & ? & _). eauto. }
  destruct to_id as [i|].
  - destruct (screens (self w) !! i) as [l'|] eqn:Hi.
    + rewrite (transition_registered _ _ _ Hi). eexists. split; [done|].
      split; [|done]. apply Hdone. destruct (Hs _ _ Hi) as (? & ? & _). eauto.
    + rewrite Hfall by done. eexists. split; [done|]. split; [|done]. by apply Hdone.
  - rewrite Hfall by done. eexists. split; [done|]. split; [|done]. by apply Hdone.
Qed.

(* ===================================================================== *)
(** ** Shell: the read-dispatch loop                                      *)
(* ===================================================================== *)

Lemma prompt_prefix_spec w l scr :
  current_screen (self w) = Some l →
  heap w !! l = Some scr →
  Shell._prompt_prefix w = Val (prompt_of (self w) scr) w.
Proof.
  intros Hc Hl. unfold Shell._prompt_prefix. munfold.
  rewrite Hc. simpl. rewrite Hl. reflexivity.
Qed.

(** The read of a pass of the loop: the prompt is computed and shown. *)
Lemma loop_body_read user w r l scr :
  current_screen (self w) = Some l →
  heap w !! l = Some scr →
  Shell.loop_body user r w =
  match r with
  | EOFError | KeyboardInterrupt =>
      Val Leave (after w [EvPrompt (prompt_of (self w) scr); EvWrite Str.newline])
  | Input None => Val Continue (after w [EvPrompt (prompt_of (self w) scr)])
  | Input (Some input) =>
      if bool_decide (Str.strip input = EmptyString)
      then Val Continue (after w [EvPrompt (prompt_of (self w) scr)])
      else
        match Str.split input with
        | [] => Exc IndexError (after w [EvPrompt (prompt_of (self w) scr)])
        | trigger :: command_args =>
            (let* item := Shell.find_item trigger in
             match item with
             | None =>
                 let* _ := Shell.write Shell.invalid_menu_item in
                 M_ret Continue
             | Some item => Shell.run_item user item command_args
             end) (after w [EvPrompt (prompt_of (self w) scr)])
        end
  end.
Proof.
  intros Hc Hl. unfold Shell.loop_body.
  unfold M_bind at 1. rewrite (prompt_prefix_spec _ _ _ Hc Hl).
  unfold M_bind at 1. unfold emit at 1. unfold after.
  destruct r as [[input|]| |]; try reflexivity.
  - case_bool_decide; [reflexivity|]. destruct (Str.split input); reflexivity.
  - munfold. simpl. by rewrite <- app_assoc.
  - munfold. simpl. by rewrite <- app_assoc.
Qed.

(** A line that has a first token is not blank. *)
Lemma loop_body_dispatch user w input trigger command_args l scr :
  current_screen (self w) = Some l →
  heap w !! l = Some scr →
  Str.split input = trigger :: command_args →
  Shell.loop_body user (Input (Some input)) w =
  (let* item := Shell.find_item trigger in
   match item with
   | None =>
       let* _ := Shell.write Shell.invalid_menu_item in
       M_ret Continue
   | Some item => Shell.run_item user item command_args
   end) (after w [EvPrompt (prompt_of (self w) scr)]).
Proof.
  intros Hc Hl Hsplit. rewrite (loop_body_read _ _ _ _ _ Hc Hl).
  rewrite bool_decide_eq_false_2.
  - by rewrite Hsplit.
  - rewrite StrFacts.strip_empty_iff_split_nil. by rewrite Hsplit.
Qed.

Lemma find_item_global w t g :
  shell_menu_items (self w) !! t = Some g →
  Shell.find_item t w = Val (Some g) w.
Proof. intros Hg. unfold Shell.find_item. munfold. by rewrite Hg. Qed.

Lemma find_item_screen w t l scr :
  shell_menu_items (self w) !! t = None →
  current_screen (self w) = Some l →
  heap w !! l = Some scr →
  Shell.find_item t w = Val (Screen.item scr t) w.
Proof.
  intros Hg Hc Hl. unfold Shell.find_item. munfold.
  rewrite Hg, Hc. simpl. by rewrite Hl.
Qed.

(** C6: when the read raises [EOFError] or [KeyboardInterrupt], [start]
    writes a newline and returns: no exception reaches the caller, no
    function is called, the reads that follow are left unread, and the
    screens and the attributes of the shell are what they were. *)
Theorem start_end_of_input user w r rest l scr :
  r = EOFError ∨ r = KeyboardInterrupt →
  current_screen (self w) = Some l →
  heap w !! l = Some scr →
  Shell.start user (r :: rest) w =
  Val (Returned rest)
      (World_mk (heap w) (self w)
         (trace w ++ [EvPrompt (prompt_of (self w) scr); EvWrite Str.newline])).
Proof.
  intros Hr Hc Hl. simpl. unfold M_bind at 1.
  rewrite (loop_body_read _ _ _ _ _ Hc Hl).
  destruct Hr as [-> | ->]; reflexivity.
Qed.

Lemma start_end_of_input_witness :
  Shell.start Sample.user0 [EOFError; Input (Some "x arg1")] Sample.world_x =
  Val (Returned [Input (Some "x arg1")])
      (World_mk (heap Sample.world_x) (self Sample.world_x)
         [EvPrompt "(main) => "; EvWrite Str.newline]).
Proof.
  refine (start_end_of_input Sample.user0 Sample.world_x EOFError
            [Input (Some "x arg1")] 0 Sample.screen_x _ _ _).
  - left. reflexivity.
  - reflexivity.
  - vm_compute. reflexivity.
Defined.

(** C1: for a trigger registered both in the menu of the shell and on
    the current screen, the loop runs the item of the shell.  The map of
    the shell is looked up first, and its answer does not depend on any
    screen; the current screen is asked exactly for the triggers the
    shell has no item for. *)
Theorem global_item_resolved_first user w t g s l scr input command_args :
  shell_menu_items (self w) !! t = Some g →
  current_screen (self w) = Some l →
  heap w !! l = Some scr →
  Screen.item scr t = Some s →
  Str.split input = t :: command_args →
  Shell.find_item t w = Val (Some g) w ∧
  Shell.loop_body user (Input (Some input)) w =
    Shell.run_item user g command_args (after w [EvPrompt (prompt_of (self w) scr)]) ∧
  (∀ w', self w' = self w → Shell.find_item t w' = Val (Some g) w') ∧
  (∀ t', shell_menu_items (self w) !! t' = None →
         Shell.find_item t' w = Val (Screen.item scr t') w).
Proof.
  intros Hg Hc Hl Hs Hsplit. split; [by apply find_item_global|]. split; [|split].
  - rewrite (loop_body_dispatch _ _ _ _ _ _ _ Hc Hl Hsplit).
    unfold M_bind at 1.
    by rewrite (find_item_global (after w [EvPrompt (prompt_of (self w) scr)]) t g Hg).
  - intros w' Hw'. apply find_item_global. by rewrite Hw'.
  - intros t' Ht'. by apply find_item_screen with l.
Qed.

Lemma global_item_resolved_first_witness :
  Shell.find_item "q" Sample.world_q = Val (Some Sample.item_quit) Sample.world_q ∧
  Shell.loop_body Sample.user0 (Input (Some "q")) Sample.world_q =
    Shell.run_item Sample.user0 Sample.item_quit []
      (after Sample.world_q [EvPrompt "(main) => "]) ∧
  (∀ w', self w' = self Sample.world_q →
         Shell.find_item "q" w' = Val (Some Sample.item_quit) w') ∧
  (∀ t', shell_menu_items (self Sample.world_q) !! t' = None →
         Shell.find_item t' Sample.world_q = Val (Screen.item Sample.screen_q t') Sample.world_q).
Proof.
  refine (global_item_resolved_first Sample.user0 Sample.world_q "q"
            Sample.item_quit Sample.item_q 0 Sample.screen_q "q" [] _ _ _ _ _).
  - vm_compute. reflexivity.
  - reflexivity.
  - vm_compute. reflexivity.
  - vm_compute. reflexivity.
  - vm_compute. reflexivity.
Defined.

Lemma MenuItem_init_fields tr d f a k item :
  MenuItem.__init__ tr d (Some f) a k = Ok item →
  MenuItem.description item = d ∧ MenuItem.func item = f ∧
  MenuItem.args item = a ∧ MenuItem.kwargs item = k.
Proof.
  unfold MenuItem.__init__. case_bool_decide; [discriminate|].
  destruct tr; intros [= <-]; done.
Qed.

(** [execute] records the call and runs the callee, for keywords it can
    pass on. *)
Lemma execute_spec user f args kwargs w :
  kwargs !! "self" = None →
  kwargs !! "func" = None →
  Shell.execute user f args kwargs w =
  Shell.call user f args kwargs (after w [EvCall f args kwargs]).
Proof.
  intros Hs Hf. unfold Shell.execute.
  rewrite bool_decide_eq_false_2; [reflexivity|].
  rewrite Hs, Hf. intros [[? [=]]|[? [=]]].
Qed.

(** C8: for every menu item the loop dispatches to and every input
    line, the function of the item is called with the bound positional
    arguments of the item followed by the tokens of the line after the
    trigger, in that order, and with the bound keyword arguments of the
    item: this call is recorded, the callee runs on these arguments, and
    the loop goes on from what the callee did. *)
Theorem handler_arguments user w input trigger command_args item l scr
    triggers description func args kwargs :
  MenuItem.__init__ triggers description (Some func) args kwargs = Ok item →
  current_screen (self w) = Some l →
  heap w !! l = Some scr →
  Str.split input = trigger :: command_args →
  Shell.find_item trigger (after w [EvPrompt (prompt_of (self w) scr)]) =
    Val (Some item) (after w [EvPrompt (prompt_of (self w) scr)]) →
  Shell.loop_body user (Input (Some input)) w =
  (let* exited :=
     catch_Exit (Shell.call user func (args ++ (VStr <$> command_args)) kwargs) in
   Shell.after_call exited)
    (after w [EvPrompt (prompt_of (self w) scr);
              EvCall func (args ++ (VStr <$> command_args)) kwargs]).
Proof.
  intros Hinit Hc Hl Hsplit Hfind.
  destruct (MenuItem_init_kwargs _ _ _ _ _ _ Hinit) as (_ & Hself & Hfunc).
  destruct (MenuItem_init_fields _ _ _ _ _ _ Hinit) as (_ & Hf & Ha & Hk).
  rewrite (loop_body_dispatch _ _ _ _ _ _ _ Hc Hl Hsplit).
  unfold M_bind at 1. rewrite Hfind.
  unfold Shell.run_item. rewrite Hf, Ha, Hk.
  unfold M_bind, catch_Exit. rewrite execute_spec by done.
  unfold after. simpl. by rewrite <- app_assoc.
Qed.

Lemma handler_arguments_witness :
  Shell.loop_body Sample.user0 (Input (Some "x arg1")) Sample.world_x =
  (let* exited :=
     catch_Exit (Shell.call Sample.user0 (Fuser 0) [VInt 1; VStr "arg1"] ∅) in
   Shell.after_call exited)
    (after Sample.world_x
       [EvPrompt "(main) => "; EvCall (Fuser 0) [VInt 1; VStr "arg1"] ∅]).
Proof.
  refine (handler_arguments Sample.user0 Sample.world_x "x arg1" "x" ["arg1"]
            Sample.item_x 0 Sample.screen_x (TrStr "x") "an item" (Fuser 0)
            [VInt 1] ∅ _ _ _ _ _).
  - vm_compute. reflexivity.
  - reflexivity.
  - vm_compute. reflexivity.
  - vm_compute. reflexivity.
  - vm_compute. reflexivity.
Defined.

(* ===================================================================== *)
(** ** Shell: rendering                                                   *)
(* ===================================================================== *)

(** The layout [_render_menu_item] writes for a trigger string: one line
    with the trigger padded to four columns when it is shorter than four
    characters, else the trigger on a line and the description, indented
    by seven spaces, on the next. *)
Lemma render_menu_item_layout trigger description w :
  Shell._render_menu_item trigger description w =
  Val tt (after w
    (if Nat.ltb (String.length trigger) 4
     then [EvWrite ("   " +:+ Str.ljust 4 trigger +:+ description)]
     else [EvWrite ("   " +:+ trigger); EvWrite ("       " +:+ description)])).
Proof.
  unfold Shell._render_menu_item.
  destruct (Nat.ltb (String.length trigger) 4); munfold; simpl; [done|].
  by rewrite <- app_assoc.
Qed.

(** No menu item has an attribute [trigger]. *)
Lemma MenuItem_no_trigger item :
  MenuItem.getattr item "trigger" = Err (AttributeError "trigger").
Proof. reflexivity. Qed.

Lemma render_item_raises item w :
  Shell.render_item item w = Exc (AttributeError "trigger") w.
Proof. reflexivity. Qed.

(** C2 does not hold of the code: on a current screen that has a menu
    item, [render_menu] writes the empty first line and then raises
    [AttributeError] on reading [item.trigger]; no line is written for
    any item. *)
Theorem render_menu_raises display_shell_menu w l scr item items :
  current_screen (self w) = Some l →
  heap w !! l = Some scr →
  Screen.items scr = item :: items →
  Shell.render_menu display_shell_menu w =
  Exc (AttributeError "trigger") (after w [EvWrite EmptyString]).
Proof.
  intros Hc Hl Hitems. unfold Shell.render_menu. munfold. simpl.
  rewrite Hc. simpl. rewrite Hl. rewrite Hitems. simpl.
  munfold. reflexivity.
Qed.

Lemma render_menu_raises_witness :
  Shell.render_menu true Sample.world_x =
  Exc (AttributeError "trigger") (after Sample.world_x [EvWrite EmptyString]).
Proof.
  refine (render_menu_raises true Sample.world_x 0 Sample.screen_x Sample.item_x [] _ _ _).
  - reflexivity.
  - vm_compute. reflexivity.
  - reflexivity.
Defined.

(** The shell items are rendered in the same way, so the help command of
    a shell as [__init__] builds it raises as well, even on a screen
    without items. *)
Lemma render_menu_shell_items_raise :
  ∃ w', Shell.render_menu true
          (World_mk Sample.heap2 (self Sample.world_home) []) =
        Exc (AttributeError "trigger") w' ∧
        trace w' = [EvWrite EmptyString; EvWrite EmptyString; EvWrite EmptyString].
Proof. eexists. split; [by vm_compute|]. reflexivity. Qed.

(* ===================================================================== *)
(** ** Screen: a run of registrations                                     *)
(* ===================================================================== *)

Lemma add_menu_item_items scr x scr' :
  Screen.add_menu_item scr (Some x) = Ok scr' →
  (MenuItem.triggers x ∈ MenuItem.triggers <$> Screen.items scr ∧
   Screen.items scr' = Screen.items scr) ∨
  ((MenuItem.triggers x ∉ MenuItem.triggers <$> Screen.items scr) ∧
   Screen.items scr' = Screen.items scr ++ [x]).
Proof.
  unfold Screen.add_menu_item, Screen.items. intros [= <-]. simpl.
  destruct (Screen.contains (Screen.ordered_menu_items scr) x) eqn:Hc; simpl.
  - left. split; [|done]. by apply contains_triggers.
  - right. split; [|done]. rewrite <- contains_triggers. congruence.
Qed.

Lemma add_menu_items_cons scr0 x rest scr :
  add_menu_items scr0 (x :: rest) = Ok scr →
  ∃ scr1, Screen.add_menu_item scr0 (Some x) = Ok scr1 ∧
          add_menu_items scr1 rest = Ok scr.
Proof. intros H. eexists. split; [reflexivity|exact H]. Qed.

(** The display list after a run: the old entries, then, in the order
    of the run, the items whose triggers were not displayed yet. *)
Lemma add_menu_items_display scr0 l scr :
  add_menu_items scr0 l = Ok scr →
  ∃ added,
    Screen.items scr = Screen.items scr0 ++ added ∧
    sublist added l ∧
    (∀ x, x ∈ l → MenuItem.triggers x ∈ MenuItem.triggers <$> Screen.items scr) ∧
    (∀ d, d ∈ added →
          (MenuItem.triggers d ∉ MenuItem.triggers <$> Screen.items scr0) ∧
          first_with_triggers l d).
Proof.
  revert scr0. induction l as [|x rest IH]; intros scr0.
  - intros [= <-]. exists []. rewrite app_nil_r. split; [done|].
    split; [done|]. split; intros ? Hin; by apply elem_of_nil in Hin.
  - intros (scr1 & Hadd & Hrun)%add_menu_items_cons.
    destruct (IH _ Hrun) as (added & Hitems & Hsub & Hall & Hfirst).
    assert (Hmono : ∀ k, k ∈ MenuItem.triggers <$> Screen.items scr1 →
                         k ∈ MenuItem.triggers <$> Screen.items scr).
    { intros k Hk. rewrite Hitems, fmap_app, elem_of_app. by left. }
    destruct (add_menu_item_items _ _ _ Hadd) as [[Hin H1]|[Hnin H1]].
    + exists added. rewrite Hitems, H1. split; [done|].
      split; [by apply sublist_cons|]. split.
      * intros y [->|Hy]%elem_of_cons.
        -- rewrite <- H1, <- Hitems. apply Hmono. by rewrite H1.
        -- rewrite <- H1, <- Hitems. by apply Hall.
      * intros d Hd. destruct (Hfirst d Hd) as (Hnd & l1 & l2 & -> & Hl1).
        rewrite H1 in Hnd. split; [done|].
        exists (x :: l1), l2. split; [done|].
        intros y [->|Hy]%elem_of_cons; [congruence|by apply Hl1].
    + exists (x :: added). rewrite Hitems, H1, <- app_assoc. split; [done|].
      split; [by apply sublist_skip|]. split.
      * intros y [->|Hy]%elem_of_cons.
        -- apply list_elem_of_fmap_2.
           rewrite !elem_of_app, list_elem_of_singleton. auto.
        -- replace (Screen.items scr0 ++ [x] ++ added) with (Screen.items scr).
           ++ by apply Hall.
           ++ by rewrite Hitems, H1, <- app_assoc.
      * intros d [->|Hd]%elem_of_cons.
        -- split; [done|]. exists [], rest. split; [done|].
           intros y Hy. by apply elem_of_nil in Hy.
        -- destruct (Hfirst d Hd) as (Hnd & l1 & l2 & -> & Hl1).
           rewrite H1, fmap_app, elem_of_app in Hnd. split; [tauto|].
           exists (x :: l1), l2. split; [done|].
           intros y [->|Hy]%elem_of_cons; [|by apply Hl1].
           intros Heq. apply Hnd. right. rewrite <- Heq. simpl.
           apply elem_of_cons. by left.
Qed.

Lemma add_menu_items_inv scr0 l scr :
  Screen_inv scr0 → add_menu_items scr0 l = Ok scr → Screen_inv scr.
Proof.
  revert scr0. induction l as [|x rest IH]; intros scr0 Hinv.
  - by intros [= <-].
  - intros (scr1 & Hadd & Hrun)%add_menu_items_cons.
    eapply IH; [|exact Hrun]. by eapply Screen_add_inv.
Qed.

(** What a trigger resolves to after a run: the last item of the run
    that has it, or what it resolved to before. *)
Lemma add_menu_items_lookup scr0 l scr t :
  add_menu_items scr0 l = Ok scr →
  (∃ x, last_with_trigger t l x ∧ Screen.item scr t = Some x) ∨
  ((∀ y, y ∈ l → ¬ has_trigger t y) ∧ Screen.item scr t = Screen.item scr0 t).
Proof.
  revert scr0. induction l as [|x rest IH]; intros scr0.
  - intros [= <-]. right. split; [|done]. intros y Hy. by apply elem_of_nil in Hy.
  - intros (scr1 & Hadd & Hrun)%add_menu_items_cons.
    destruct (Screen_add_lookup scr0 x) as (scr1' & Hadd' & _ & Hin & Hout).
    rewrite Hadd in Hadd'. injection Hadd' as <-.
    destruct (IH _ Hrun) as [(y & (l1 & l2 & -> & Hy & Hl2) & Hlook)|[Hnone Hlook]].
    + left. exists y. split; [|done]. exists (x :: l1), l2. done.
    + destruct (decide (t ∈ seq_items (MenuItem.triggers x))) as [Hx|Hx].
      * left. exists x. split.
        -- exists [], rest. done.
        -- rewrite Hlook. by apply Hin.
      * right. split.
        -- intros y [->|Hy]%elem_of_cons; [done|by apply Hnone].
        -- rewrite Hlook. by apply Hout.
Qed.

Lemma add_menu_items_app scr0 l1 l2 scr :
  add_menu_items scr0 (l1 ++ l2) = Ok scr →
  ∃ scr1, add_menu_items scr0 l1 = Ok scr1 ∧ add_menu_items scr1 l2 = Ok scr.
Proof.
  revert scr0. induction l1 as [|x l1 IH]; intros scr0.
  - intros H. by exists scr0.
  - rewrite <- app_comm_cons.
    intros (scr1 & Hadd & Hrun)%add_menu_items_cons.
    destruct (IH _ Hrun) as (scr2 & H1 & H2). exists scr2. split; [|done].
    injection Hadd as <-. exact H1.
Qed.

(** The last item of a run that has a trigger is what the trigger
    resolves to. *)
Lemma add_menu_items_last scr0 l1 x l2 scr t :
  add_menu_items scr0 (l1 ++ x :: l2) = Ok scr →
  has_trigger t x →
  (∀ y, y ∈ l2 → ¬ has_trigger t y) →
  Screen.item scr t = Some x.
Proof.
  intros (scr1 & _ & Hrun)%add_menu_items_app Hx Hl2.
  apply add_menu_items_cons in Hrun as (scr2 & Hadd & Hrun).
  destruct (Screen_add_lookup scr1 x) as (scr2' & Hadd' & _ & Hin & _).
  rewrite Hadd in Hadd'. injection Hadd' as <-.
  destruct (add_menu_items_lookup _ _ _ t Hrun)
    as [(y & (k1 & k2 & -> & Hy & _) & _)|[_ Hlook]].
  - exfalso. apply (Hl2 y); [|done]. rewrite elem_of_app, elem_of_cons. auto.
  - rewrite Hlook. by apply Hin.
Qed.

(** X1: on a new screen, after any run of registrations the display
    list holds, in the order of the run, the first item of the run for
    each distinct [triggers] value: it is a subsequence of the run, no two
    of its entries compare equal, every registered item compares equal to
    one of its entries, and each entry is the first item of the run with
    its triggers. *)
Theorem display_is_first_registrations i scr0 l scr :
  Screen.__init__ (Some i) = Ok scr0 →
  add_menu_items scr0 l = Ok scr →
  sublist (Screen.items scr) l ∧
  NoDup (MenuItem.triggers <$> Screen.items scr) ∧
  (∀ x, x ∈ l → ∃ d, d ∈ Screen.items scr ∧ MenuItem.__eq__ d x = true) ∧
  (∀ d, d ∈ Screen.items scr → first_with_triggers l d).
Proof.
  intros Hinit Hrun.
  pose proof (add_menu_items_inv _ _ _ (Screen_init_inv _ _ Hinit) Hrun) as Hinv.
  destruct (add_menu_items_display _ _ _ Hrun) as (added & Hitems & Hsub & Hall & Hfirst).
  injection Hinit as <-. simpl in Hitems.
  split; [by rewrite Hitems|]. split; [exact Hinv|]. split.
  - intros x Hx. apply Hall in Hx.
    apply list_elem_of_fmap in Hx as (d & Heq & Hd).
    exists d. split; [done|]. by apply MenuItem_eq_spec.
  - intros d Hd. rewrite Hitems in Hd. by apply Hfirst.
Qed.

Lemma display_is_first_registrations_witness :
  sublist [Sample.item_old; Sample.item_ba]
          [Sample.item_old; Sample.item_new; Sample.item_ba; Sample.item_old] ∧
  NoDup (MenuItem.triggers <$> [Sample.item_old; Sample.item_ba]) ∧
  (∀ x, x ∈ [Sample.item_old; Sample.item_new; Sample.item_ba; Sample.item_old] →
        ∃ d, d ∈ [Sample.item_old; Sample.item_ba] ∧ MenuItem.__eq__ d x = true) ∧
  (∀ d, d ∈ [Sample.item_old; Sample.item_ba] →
        first_with_triggers
          [Sample.item_old; Sample.item_new; Sample.item_ba; Sample.item_old] d).
Proof.
  refine (display_is_first_registrations "main" (Screen.mk "main" ∅ [])
            [Sample.item_old; Sample.item_new; Sample.item_ba; Sample.item_old]
            (Screen.mk "main"
               (register Sample.item_old
                  (register Sample.item_ba
                     (register Sample.item_new
                        (register Sample.item_old ∅ ["a"; "b"]) ["a"; "b"])
                     ["b"; "a"]) ["a"; "b"])
               [Sample.item_old; Sample.item_ba]) _ _).
  - reflexivity.
  - vm_compute. reflexivity.
Defined.

(** X2: on a new screen, after any run of registrations a trigger
    resolves to the last item of the run that has it, and to nothing
    exactly when no item of the run has it. *)
Theorem lookup_is_last_registration i scr0 l scr t :
  Screen.__init__ (Some i) = Ok scr0 →
  add_menu_items scr0 l = Ok scr →
  (∀ x, Screen.item scr t = Some x ↔ last_with_trigger t l x) ∧
  (Screen.item scr t = None ↔ ∀ y, y ∈ l → ¬ has_trigger t y).
Proof.
  intros Hinit Hrun. injection Hinit as <-.
  destruct (add_menu_items_lookup _ _ _ t Hrun)
    as [(x & Hlast & Hlook)|[Hnone Hlook]].
  - split.
    + intros y. rewrite Hlook. split.
      * by intros [= <-].
      * intros (l1 & l2 & -> & Hy & Hl2).
        by rewrite <- (add_menu_items_last _ _ _ _ _ t Hrun Hy Hl2).
    + rewrite Hlook. split; [discriminate|]. intros Hnone. exfalso.
      destruct Hlast as (l1 & l2 & -> & Hx & _).
      apply (Hnone x); [|done]. rewrite elem_of_app, elem_of_cons. auto.
  - unfold Screen.item in Hlook. simpl in Hlook. rewrite lookup_empty in Hlook.
    split.
    + intros x. unfold Screen.item at 1. rewrite Hlook. split; [discriminate|].
      intros (l1 & l2 & -> & Hx & _). exfalso.
      apply (Hnone x); [|done]. rewrite elem_of_app, elem_of_cons. auto.
    + done.
Qed.

Lemma lookup_is_last_registration_witness :
  (∀ x, Screen.item Sample.screen_old "a" = Some x ↔
        last_with_trigger "a" [Sample.item_old] x) ∧
  (Screen.item Sample.screen_old "a" = None ↔
   ∀ y, y ∈ [Sample.item_old] → ¬ has_trigger "a" y).
Proof.
  refine (lookup_is_last_registration "main" (Screen.mk "main" ∅ [])
            [Sample.item_old] Sample.screen_old "a" _ _).
  - reflexivity.
  - vm_compute. reflexivity.
Defined.

(** X3: on a screen built by registrations, whatever a trigger resolves
    to has that trigger, and the display list holds an entry that
    compares equal to it. *)
Theorem lookup_has_display_entry i scr0 l scr t x :
  Screen.__init__ (Some i) = Ok scr0 →
  add_menu_items scr0 l = Ok scr →
  Screen.item scr t = Some x →
  has_trigger t x ∧ ∃ d, d ∈ Screen.items scr ∧ MenuItem.__eq__ d x = true.
Proof.
  intros Hinit Hrun Hx. injection Hinit as <-.
  destruct (add_menu_items_lookup _ _ _ t Hrun)
    as [(y & (l1 & l2 & -> & Hy & _) & Hlook)|[_ Hlook]].
  - rewrite Hlook in Hx. injection Hx as ->. split; [done|].
    destruct (add_menu_items_display _ _ _ Hrun) as (_ & _ & _ & Hall & _).
    assert (Hin : x ∈ l1 ++ x :: l2) by (rewrite elem_of_app, elem_of_cons; auto).
    apply Hall, list_elem_of_fmap in Hin as (d & Heq & Hd).
    exists d. split; [done|]. by apply MenuItem_eq_spec.
  - rewrite Hlook in Hx. unfold Screen.item in Hx. simpl in Hx.
    by rewrite lookup_empty in Hx.
Qed.

Lemma lookup_has_display_entry_witness :
  has_trigger "a" Sample.item_old ∧
  ∃ d, d ∈ Screen.items Sample.screen_old ∧ MenuItem.__eq__ d Sample.item_old = true.
Proof.
  refine (lookup_has_display_entry "main" (Screen.mk "main" ∅ [])
            [Sample.item_old] Sample.screen_old "a" Sample.item_old _ _ _).
  - reflexivity.
  - vm_compute. reflexivity.
  - vm_compute. reflexivity.
Defined.

(* ===================================================================== *)
(** ** Construction and registration                                      *)
(* ===================================================================== *)

(** X4: every constructor and registration method rejects [None] with
    [ValueError] before it changes anything: [Screen(None)],
    [screen.add_menu_item(None)] and [shell.add_menu_item(None)] build
    nothing, [shell.add_screen(None)] and a registration of [None] through
    a screen reference leave the world as it was, and [MenuItem] checks
    its triggers before its function. *)
Theorem None_is_rejected :
  Screen.__init__ None = Err (ValueError "id may not be None") ∧
  (∀ scr, Screen.add_menu_item scr None = Err (ValueError "menu_item may not be None")) ∧
  (∀ s, Shell.add_menu_item s None = Err (ValueError "menu_item may not be None")) ∧
  (∀ w is_home,
     Shell.add_screen None is_home w = Exc (ValueError "screen may not be None") w) ∧
  (∀ w l, is_Some (heap w !! l) →
          Screen_add_menu_item l None w =
          Exc (ValueError "menu_item may not be None") w) ∧
  (∀ d f a, MenuItem.__init__ TrNone d f a ∅ =
            Err (ValueError "trigger may not be None")) ∧
  (∀ tr d a, tr ≠ TrNone →
             MenuItem.__init__ tr d None a ∅ = Err (ValueError "func may not be None")).
Proof.
  repeat split; try reflexivity.
  - intros w l [scr Hl]. unfold Screen_add_menu_item. munfold. by rewrite Hl.
  - intros tr d a Htr. destruct tr; [done|reflexivity..].
Qed.

(** X23: [MenuItem] puts a trigger given as one string into a list, and
    keeps a list or a tuple as it is: the item built from the string [s]
    compares equal to the one built from the list [[s]] and not to the
    one built from the tuple [(s,)], whatever else they are built with. *)
Theorem single_trigger_is_a_list s d1 f1 a1 k1 d2 f2 a2 k2 d3 f3 a3 k3 x y z :
  MenuItem.__init__ (TrStr s) d1 (Some f1) a1 k1 = Ok x →
  MenuItem.__init__ (TrList [s]) d2 (Some f2) a2 k2 = Ok y →
  MenuItem.__init__ (TrTuple [s]) d3 (Some f3) a3 k3 = Ok z →
  MenuItem.triggers x = PySeq PyList [s] ∧
  MenuItem.__eq__ x y = true ∧
  MenuItem.__eq__ x z = false ∧
  MenuItem.__eq__ y z = false.
Proof.
  unfold MenuItem.__init__.
  repeat case_bool_decide; try discriminate.
  intros [= <-] [= <-] [= <-]. unfold MenuItem.__eq__. simpl.
  split; [done|]. split; [by apply bool_decide_eq_true_2|].
  split; first [reflexivity | by apply bool_decide_eq_false_2].
Qed.

Lemma single_trigger_is_a_list_witness :
  MenuItem.triggers Sample.item_x = PySeq PyList ["x"] ∧
  MenuItem.__eq__ Sample.item_x (MenuItem.mk (PySeq PyList ["x"]) "other" Fnoop [] ∅) = true ∧
  MenuItem.__eq__ Sample.item_x (MenuItem.mk (PySeq PyTuple ["x"]) "third" Fstop [] ∅) = false ∧
  MenuItem.__eq__ (MenuItem.mk (PySeq PyList ["x"]) "other" Fnoop [] ∅)
                  (MenuItem.mk (PySeq PyTuple ["x"]) "third" Fstop [] ∅) = false.
Proof.
  refine (single_trigger_is_a_list "x" "an item" (Fuser 0) [VInt 1] ∅
            "other" Fnoop [] ∅ "third" Fstop [] ∅ _ _ _ _ _ _).
  - vm_compute. reflexivity.
  - vm_compute. reflexivity.
  - vm_compute. reflexivity.
Defined.

(** X5: an item added to the menu of the shell is found for each of its
    triggers whatever the screens hold, so it hides the items the current
    screen has for these triggers; the other triggers of the shell and
    its screens and pointers stay as they were. *)
Theorem shell_item_hides_screen_items s item :
  ∃ s', Shell.add_menu_item s (Some item) = Ok s' ∧
    (∀ t hp tr, has_trigger t item →
       Shell.find_item t (World_mk hp s' tr) = Val (Some item) (World_mk hp s' tr)) ∧
    (∀ t, ¬ has_trigger t item →
       shell_menu_items s' !! t = shell_menu_items s !! t) ∧
    screens s' = screens s ∧ current_screen s' = current_screen s ∧
    home_screen s' = home_screen s ∧ previous_screen s' = previous_screen s.
Proof.
  eexists. split; [reflexivity|]. split; [|split; [|done]].
  - intros t hp tr Ht. apply find_item_global. simpl.
    by apply register_lookup_in.
  - intros t Ht. simpl. by apply register_lookup_notin.
Qed.

(** X6: [Shell(...)] always succeeds and yields a shell with no screen,
    the given [auto_render_menu], the prompt prefix with the placeholder
    for the screen id, and the five commands under their short triggers.
    With [include_long_triggers] each long trigger resolves to the same
    item as its short one, and the menu has ten triggers; without it the
    menu has just the five short ones. *)
Theorem Shell_init_commands a i :
  ∃ s, Shell.__init__ a i = Ok s ∧
    no_screen s ∧ auto_render_menu s = a ∧ prompt_prefix s = "($s) => " ∧
    MenuItem.func <$> shell_menu_items s !! "^" = Some Fhome ∧
    MenuItem.func <$> shell_menu_items s !! "<" = Some Fprevious ∧
    MenuItem.func <$> shell_menu_items s !! "?" = Some Frender_menu ∧
    MenuItem.func <$> shell_menu_items s !! "/" = Some Fclear_screen ∧
    MenuItem.func <$> shell_menu_items s !! "q" = Some Fstop ∧
    (∀ t x, shell_menu_items s !! t = Some x →
            MenuItem.args x = [] ∧ MenuItem.kwargs x = ∅) ∧
    (if i
     then shell_menu_items s !! "home" = shell_menu_items s !! "^" ∧
          shell_menu_items s !! "help" = shell_menu_items s !! "?" ∧
          shell_menu_items s !! "clear" = shell_menu_items s !! "/" ∧
          shell_menu_items s !! "quit" = shell_menu_items s !! "q" ∧
          shell_menu_items s !! "exit" = shell_menu_items s !! "q" ∧
          size (shell_menu_items s) = 10
     else size (shell_menu_items s) = 5).
Proof.
  assert (Hargs : ∀ (m : gmap string MenuItem.t),
            map_Forall (λ _ x, MenuItem.args x = [] ∧ MenuItem.kwargs x = ∅) m →
            ∀ t x, m !! t = Some x → MenuItem.args x = [] ∧ MenuItem.kwargs x = ∅).
  { intros m Hm t x Hx. exact (Hm t x Hx). }
  destruct a, i; eexists; (split; [vm_compute; reflexivity|]);
    (split; [repeat split|]);
    repeat (split; [vm_compute; reflexivity|]);
    (split; [|vm_compute; repeat split; reflexivity]);
    apply Hargs, map_Forall_to_list; vm_compute;
    repeat (constructor; [split; reflexivity|]); constructor.
Qed.

(* ===================================================================== *)
(** ** The loop, case by case                                             *)
(* ===================================================================== *)

Lemma find_item_after w t r evs :
  Shell.find_item t w = Val r w →
  Shell.find_item t (after w evs) = Val r (after w evs).
Proof.
  unfold Shell.find_item. munfold. simpl.
  destruct (shell_menu_items (self w) !! t); [by intros [= <-]|].
  destruct (current_screen (self w)); [|discriminate]. simpl.
  destruct (heap w !! n); [|discriminate]. by intros [= <-].
Qed.

(** A pass of the loop on a line that selects an item: the function of
    the item runs in [at_call], and [after_call] decides how the loop
    goes on. *)
Lemma loop_body_selects user w scr input item command_args :
  selects w scr input item command_args →
  Shell.loop_body user (Input (Some input)) w =
  (let* exited :=
     catch_Exit (Shell.call user (MenuItem.func item)
                   (call_args item command_args) (MenuItem.kwargs item)) in
   Shell.after_call exited) (at_call w scr item command_args).
Proof.
  intros (l & trigger & Hc & Hl & Hsplit & Hfind & Hself & Hfunc).
  rewrite (loop_body_dispatch _ _ _ _ _ _ _ Hc Hl Hsplit).
  unfold M_bind at 1. rewrite (find_item_after _ _ _ _ Hfind).
  unfold Shell.run_item, M_bind, catch_Exit. rewrite execute_spec by done.
  unfold at_call, call_args, after. simpl. by rewrite <- app_assoc.
Qed.

Lemma start_step user r rest w :
  Shell.start user (r :: rest) w =
  match Shell.loop_body user r w with
  | Val Continue w' => Shell.start user rest w'
  | Val Leave w' => Val (Returned rest) w'
  | Exc e w' => Exc e w'
  | Stuck => Stuck
  end.
Proof.
  simpl. unfold M_bind.
  destruct (Shell.loop_body user r w) as [[]| |]; reflexivity.
Qed.

(** X7: a read that returns [None] or a line of whitespace only is
    skipped: the prompt was shown, nothing else happened, and the loop
    goes on with the next read. *)
Theorem start_skips_blank_line user w line rest l scr :
  current_screen (self w) = Some l →
  heap w !! l = Some scr →
  (∀ s, line = Some s → Str.all_space s = true) →
  Shell.start user (Input line :: rest) w =
  Shell.start user rest (after w [EvPrompt (prompt_of (self w) scr)]).
Proof.
  intros Hc Hl Hblank. rewrite start_step, (loop_body_read _ _ _ _ _ Hc Hl).
  destruct line as [s|]; [|reflexivity].
  rewrite bool_decide_eq_true_2; [reflexivity|].
  apply StrFacts.strip_all_space. by apply Hblank.
Qed.

Lemma start_skips_blank_line_witness :
  Shell.start Sample.user0 [Input (Some "   "); EOFError] Sample.world_x =
  Shell.start Sample.user0 [EOFError]
    (after Sample.world_x [EvPrompt "(main) => "]).
Proof.
  refine (start_skips_blank_line Sample.user0 Sample.world_x (Some "   ")
            [EOFError] 0 Sample.screen_x _ _ _).
  - reflexivity.
  - vm_compute. reflexivity.
  - intros s [= <-]. reflexivity.
Defined.

(** X8: a line whose first token is a trigger of neither the shell nor
    the current screen makes the shell write the invalid-item message
    and go on with the next read; no function is called and the shell
    and its screens are what they were. *)
Theorem start_unknown_trigger user w input trigger command_args rest l scr :
  current_screen (self w) = Some l →
  heap w !! l = Some scr →
  Str.split input = trigger :: command_args →
  shell_menu_items (self w) !! trigger = None →
  Screen.item scr trigger = None →
  Shell.start user (Input (Some input) :: rest) w =
  Shell.start user rest
    (after w [EvPrompt (prompt_of (self w) scr);
              EvWrite Shell.invalid_menu_item]).
Proof.
  intros Hc Hl Hsplit Hg Hs.
  rewrite start_step, (loop_body_dispatch _ _ _ _ _ _ _ Hc Hl Hsplit).
  unfold M_bind at 1.
  rewrite (find_item_screen (after w _) trigger l scr Hg Hc Hl), Hs.
  munfold. simpl. by rewrite <- app_assoc.
Qed.

Lemma start_unknown_trigger_witness :
  Shell.start Sample.user0 [Input (Some "zz top"); EOFError] Sample.world_x =
  Shell.start Sample.user0 [EOFError]
    (after Sample.world_x [EvPrompt "(main) => "; EvWrite Shell.invalid_menu_item]).
Proof.
  refine (start_unknown_trigger Sample.user0 Sample.world_x "zz top" "zz" ["top"]
            [EOFError] 0 Sample.screen_x _ _ _ _ _).
  - reflexivity.
  - vm_compute. reflexivity.
  - vm_compute. reflexivity.
  - vm_compute. reflexivity.
  - vm_compute. reflexivity.
Defined.

(** X9: when the function of the selected item raises [Exit], [start]
    returns to its caller without an exception, in the world the function
    left: the reads that follow stay unread and the menu is not
    rendered, whatever [auto_render_menu] is. *)
Theorem start_returns_on_Exit user w scr input item command_args rest w' :
  selects w scr input item command_args →
  Shell.call user (MenuItem.func item) (call_args item command_args)
    (MenuItem.kwargs item) (at_call w scr item command_args) = Exc Exit w' →
  Shell.start user (Input (Some input) :: rest) w = Val (Returned rest) w'.
Proof.
  intros Hsel Hcall. rewrite start_step, (loop_body_selects _ _ _ _ _ _ Hsel).
  unfold M_bind, catch_Exit. by rewrite Hcall.
Qed.

Lemma selects_sample_e auto :
  selects (Sample.world_u auto) Sample.screen_u "e now" Sample.item_e ["now"].
Proof.
  exists 0, "e". repeat split; vm_compute; reflexivity.
Qed.

Lemma start_returns_on_Exit_witness :
  Shell.start Sample.user1 [Input (Some "e now"); Input (Some "x")] (Sample.world_u true) =
  Val (Returned [Input (Some "x")])
      (at_call (Sample.world_u true) Sample.screen_u Sample.item_e ["now"]).
Proof.
  refine (start_returns_on_Exit Sample.user1 (Sample.world_u true) Sample.screen_u
            "e now" Sample.item_e ["now"] [Input (Some "x")] _ _ _).
  - apply selects_sample_e.
  - reflexivity.
Defined.

(** X10: when the function of the selected item raises anything but
    [Exit], the exception leaves [start]: nothing in the loop catches
    it, and the world is the one the function left. *)
Theorem start_propagates_exception user w scr input item command_args rest e w' :
  selects w scr input item command_args →
  e ≠ Exit →
  Shell.call user (MenuItem.func item) (call_args item command_args)
    (MenuItem.kwargs item) (at_call w scr item command_args) = Exc e w' →
  Shell.start user (Input (Some input) :: rest) w = Exc e w'.
Proof.
  intros Hsel He Hcall. rewrite start_step, (loop_body_selects _ _ _ _ _ _ Hsel).
  unfold M_bind, catch_Exit. rewrite Hcall. by destruct e.
Qed.

Lemma selects_sample_f auto :
  selects (Sample.world_u auto) Sample.screen_u "f" Sample.item_f [].
Proof.
  exists 0, "f". repeat split; vm_compute; reflexivity.
Qed.

Lemma start_propagates_exception_witness :
  Shell.start Sample.user1 [Input (Some "f"); Input (Some "x")] (Sample.world_u false) =
  Exc (UserError 2) (at_call (Sample.world_u false) Sample.screen_u Sample.item_f []).
Proof.
  refine (start_propagates_exception Sample.user1 (Sample.world_u false)
            Sample.screen_u "f" Sample.item_f [] [Input (Some "x")]
            (UserError 2) _ _ _ _).
  - apply selects_sample_f.
  - discriminate.
  - reflexivity.
Defined.

(** X11: when the function of the selected item returns and the shell
    does not render automatically, the loop goes on with the next read
    in the world the function left. *)
Theorem start_continues_after_call user w scr input item command_args rest w' :
  selects w scr input item command_args →
  Shell.call user (MenuItem.func item) (call_args item command_args)
    (MenuItem.kwargs item) (at_call w scr item command_args) = Val tt w' →
  auto_render_menu (self w') = false →
  Shell.start user (Input (Some input) :: rest) w = Shell.start user rest w'.
Proof.
  intros Hsel Hcall Hauto. rewrite start_step, (loop_body_selects _ _ _ _ _ _ Hsel).
  unfold M_bind, catch_Exit. rewrite Hcall. unfold Shell.after_call.
  munfold. by rewrite Hauto.
Qed.

Lemma selects_sample_x auto :
  selects (Sample.world_u auto) Sample.screen_u "x arg1" Sample.item_x ["arg1"].
Proof.
  exists 0, "x". repeat split; vm_compute; reflexivity.
Qed.

Lemma start_continues_after_call_witness :
  Shell.start Sample.user1 [Input (Some "x arg1"); EOFError] (Sample.world_u false) =
  Shell.start Sample.user1 [EOFError]
    (at_call (Sample.world_u false) Sample.screen_u Sample.item_x ["arg1"]).
Proof.
  refine (start_continues_after_call Sample.user1 (Sample.world_u false)
            Sample.screen_u "x arg1" Sample.item_x ["arg1"] [EOFError] _ _ _ _).
  - apply selects_sample_x.
  - reflexivity.
  - reflexivity.
Defined.

(** X12: started on a shell that has no current screen, [start] raises
    [AttributeError] while it builds its first prompt: nothing is read,
    written or called, whatever the user would have typed. *)
Theorem start_without_screen_raises user w inputs :
  current_screen (self w) = None →
  Shell.start user inputs w = Exc (AttributeError "id") w.
Proof.
  intros Hc.
  assert (Hp : Shell._prompt_prefix w = Exc (AttributeError "id") w).
  { unfold Shell._prompt_prefix. munfold. by rewrite Hc. }
  destruct inputs as [|r rest].
  - simpl. unfold M_bind. by rewrite Hp.
  - rewrite start_step. unfold Shell.loop_body. unfold M_bind at 1. by rewrite Hp.
Qed.

Lemma start_without_screen_raises_witness :
  Shell.start Sample.user0 [Input (Some "q")] Sample.world0 =
  Exc (AttributeError "id") Sample.world0.
Proof.
  refine (start_without_screen_raises Sample.user0 Sample.world0 [Input (Some "q")] _).
  reflexivity.
Defined.

(** [call] on a callable without parameters. *)
Lemma call_no_argument user f args kwargs w :
  takes_no_argument f →
  Shell.call user f args kwargs w =
  Shell.nullary
    (match f with
     | Fhome => Shell.home
     | Fprevious => Shell.previous
     | Fclear_screen => Shell.clear_screen
     | Fstop => Shell.stop
     | _ => M_ret tt
     end) args kwargs w.
Proof.
  unfold takes_no_argument. rewrite !elem_of_cons, elem_of_nil.
  intros [->|[->|[->|[->|[->|[]]]]]]; reflexivity.
Qed.

(** X13: the commands of the shell that take no argument ([noop], home,
    previous, clear and stop) fail when the user types anything after
    the trigger, or when the item has bound arguments: the call raises
    [TypeError], which leaves [start]; the command itself has no
    effect. *)
Theorem start_command_with_arguments user w scr input item command_args rest :
  selects w scr input item command_args →
  takes_no_argument (MenuItem.func item) →
  call_args item command_args ≠ [] →
  Shell.start user (Input (Some input) :: rest) w =
  Exc TypeError (at_call w scr item command_args).
Proof.
  intros Hsel Hf Hargs. rewrite start_step, (loop_body_selects _ _ _ _ _ _ Hsel).
  unfold M_bind, catch_Exit. rewrite call_no_argument by done.
  unfold Shell.nullary. by destruct (call_args item command_args).
Qed.

Lemma selects_sample_q input command_args :
  Str.split input = "q" :: command_args →
  selects Sample.world_x Sample.screen_x input Sample.item_quit command_args.
Proof.
  intros Hsplit. exists 0, "q". split; [reflexivity|].
  split; [vm_compute; reflexivity|]. split; [done|].
  repeat split; vm_compute; reflexivity.
Qed.

Lemma start_command_with_arguments_witness :
  Shell.start Sample.user0 [Input (Some "q now"); EOFError] Sample.world_x =
  Exc TypeError (at_call Sample.world_x Sample.screen_x Sample.item_quit ["now"]).
Proof.
  refine (start_command_with_arguments Sample.user0 Sample.world_x Sample.screen_x
            "q now" Sample.item_quit ["now"] [EOFError] _ _ _).
  - apply selects_sample_q. vm_compute. reflexivity.
  - unfold takes_no_argument. simpl. rewrite !elem_of_cons. auto 10.
  - discriminate.
Defined.

(** X14: a line that is just a trigger of the stop command makes
    [start] return without an exception: the call of [stop] is recorded,
    the shell and its screens are what they were, and the reads that
    follow stay unread. *)
Theorem start_stop_command user w scr input item rest :
  selects w scr input item [] →
  MenuItem.func item = Fstop →
  MenuItem.args item = [] →
  MenuItem.kwargs item = ∅ →
  Shell.start user (Input (Some input) :: rest) w =
  Val (Returned rest)
      (after w [EvPrompt (prompt_of (self w) scr); EvCall Fstop [] ∅]).
Proof.
  intros Hsel Hf Ha Hk. rewrite start_step, (loop_body_selects _ _ _ _ _ _ Hsel).
  unfold M_bind, catch_Exit, at_call, call_args. rewrite Hf, Ha, Hk. reflexivity.
Qed.

Lemma start_stop_command_witness :
  Shell.start Sample.user0 [Input (Some " q "); Input (Some "x")] Sample.world_x =
  Val (Returned [Input (Some "x")])
      (after Sample.world_x [EvPrompt "(main) => "; EvCall Fstop [] ∅]).
Proof.
  refine (start_stop_command Sample.user0 Sample.world_x Sample.screen_x
            " q " Sample.item_quit [Input (Some "x")] _ _ _ _).
  - apply selects_sample_q. vm_compute. reflexivity.
  - reflexivity.
  - reflexivity.
  - reflexivity.
Defined.

(** [render_menu] stops at the first item of the current screen. *)
Lemma render_menu_first_item display_shell_menu w l scr item items :
  current_screen (self w) = Some l →
  heap w !! l = Some scr →
  Screen.items scr = item :: items →
  Shell.render_menu display_shell_menu w =
  Exc (AttributeError "trigger") (after w [EvWrite EmptyString]).
Proof.
  intros Hc Hl Hitems. unfold Shell.render_menu. munfold. simpl.
  rewrite Hc. simpl. rewrite Hl. rewrite Hitems. simpl.
  munfold. reflexivity.
Qed.

(** X15: with [auto_render_menu] set, a dispatch whose function returns
    ends [start] all the same when the current screen has a menu item:
    the rendering that follows the call raises [AttributeError] for
    [item.trigger] after writing one empty line, and the reads that
    follow are never made. *)
Theorem start_auto_render_raises user w scr input item command_args rest
    w' l' scr' d ds :
  selects w scr input item command_args →
  Shell.call user (MenuItem.func item) (call_args item command_args)
    (MenuItem.kwargs item) (at_call w scr item command_args) = Val tt w' →
  auto_render_menu (self w') = true →
  current_screen (self w') = Some l' →
  heap w' !! l' = Some scr' →
  Screen.items scr' = d :: ds →
  Shell.start user (Input (Some input) :: rest) w =
  Exc (AttributeError "trigger") (after w' [EvWrite EmptyString]).
Proof.
  intros Hsel Hcall Hauto Hc Hl Hitems.
  rewrite start_step, (loop_body_selects _ _ _ _ _ _ Hsel).
  unfold M_bind, catch_Exit. rewrite Hcall. unfold Shell.after_call.
  unfold M_bind, get_self. rewrite Hauto.
  by rewrite (render_menu_first_item _ _ _ _ _ _ Hc Hl Hitems).
Qed.

Lemma start_auto_render_raises_witness :
  Shell.start Sample.user1 [Input (Some "x arg1"); EOFError] (Sample.world_u true) =
  Exc (AttributeError "trigger")
      (after (at_call (Sample.world_u true) Sample.screen_u Sample.item_x ["arg1"])
             [EvWrite EmptyString]).
Proof.
  refine (start_auto_render_raises Sample.user1 (Sample.world_u true) Sample.screen_u
            "x arg1" Sample.item_x ["arg1"] [EOFError] _ 0 Sample.screen_u
            Sample.item_x [Sample.item_e; Sample.item_f] _ _ _ _ _ _).
  - apply selects_sample_x.
  - reflexivity.
  - reflexivity.
  - reflexivity.
  - vm_compute. reflexivity.
  - reflexivity.
Defined.

(* ===================================================================== *)
(** ** Navigation between registered screens                              *)
(* ===================================================================== *)

Lemma attr_id_spec w l scr :
  heap w !! l = Some scr → attr_id (Some l) w = Val (Screen.id scr) w.
Proof. intros Hl. munfold. by rewrite Hl. Qed.

(** X16: once a home screen is set, and as long as the references of
    the shell are valid (which [add_screen] and the navigation calls
    ensure), [transition] with any id, [home] and [previous] all return:
    none raises [AttributeError] or [KeyError]; they keep the references
    valid and leave the home screen alone, and [transition] records the
    screen it leaves as the previous one. *)
Theorem navigation_returns w h :
  shell_inv w →
  home_screen (self w) = Some h →
  (∀ to_id, ∃ w', Shell.transition to_id w = Val tt w' ∧ shell_inv w' ∧
                  home_screen (self w') = Some h ∧
                  previous_screen (self w') = current_screen (self w)) ∧
  (∃ w', Shell.home w = Val tt w' ∧ shell_inv w' ∧ home_screen (self w') = Some h) ∧
  (∃ w', Shell.previous w = Val tt w' ∧ shell_inv w' ∧ home_screen (self w') = Some h).
Proof.
  intros Hinv Hh.
  assert (Hhome : ∃ w', Shell.home w = Val tt w' ∧ shell_inv w' ∧
                        home_screen (self w') = Some h).
  { destruct (inv_home _ Hinv h Hh) as (scr & Hscr & _).
    destruct (transition_returns w (Some (Screen.id scr)) h Hinv Hh)
      as (w' & Ht & Hinv' & _ & Hh').
    exists w'. split; [|done]. unfold Shell.home, M_bind, get_self.
    rewrite Hh. by rewrite (attr_id_spec _ _ _ Hscr). }
  split; [|split; [done|]].
  - intros to_id. destruct (transition_returns w to_id h Hinv Hh)
      as (w' & Ht & Hinv' & Hp & Hh'). eauto.
  - unfold Shell.previous, M_bind, get_self.
    destruct (previous_screen (self w)) as [p|] eqn:Hp; [|done].
    destruct (inv_previous _ Hinv p Hp) as [scr Hscr].
    rewrite (attr_id_spec _ _ _ Hscr).
    destruct (transition_returns w (Some (Screen.id scr)) h Hinv Hh)
      as (w' & Ht & Hinv' & _ & Hh'). eauto.
Qed.

Lemma shell_inv_world_home : shell_inv Sample.world_home.
Proof.
  split; simpl.
  - intros i l [<- <-]%lookup_singleton_Some. by exists Sample.screen_main.
  - intros h [= <-]. exists Sample.screen_main. split; [done|].
    simpl. rewrite lookup_singleton_eq. eauto.
  - intros c [= <-]. by exists Sample.screen_main.
  - intros p [=].
Qed.

Lemma navigation_returns_witness :
  (∀ to_id, ∃ w', Shell.transition to_id Sample.world_home = Val tt w' ∧ shell_inv w' ∧
                  home_screen (self w') = Some 0 ∧
                  previous_screen (self w') = Some 0) ∧
  (∃ w', Shell.home Sample.world_home = Val tt w' ∧ shell_inv w' ∧
         home_screen (self w') = Some 0) ∧
  (∃ w', Shell.previous Sample.world_home = Val tt w' ∧ shell_inv w' ∧
         home_screen (self w') = Some 0).
Proof.
  refine (navigation_returns Sample.world_home 0 _ _).
  - apply shell_inv_world_home.
  - reflexivity.
Defined.

(** X17: [transition] to a registered id makes that screen current and
    logs nothing; [previous] then leads back: after the two calls the
    current screen is the one the shell started from (when it is
    registered under its own id) and the previous screen is the one
    just visited. *)
Theorem transition_then_previous w i l c scr :
  screens (self w) !! i = Some l →
  current_screen (self w) = Some c →
  heap w !! c = Some scr →
  screens (self w) !! Screen.id scr = Some c →
  ∃ w1 w2,
    Shell.transition (Some i) w = Val tt w1 ∧
    current_screen (self w1) = Some l ∧
    previous_screen (self w1) = Some c ∧
    Shell.previous w1 = Val tt w2 ∧
    current_screen (self w2) = Some c ∧
    previous_screen (self w2) = Some l ∧
    home_screen (self w2) = home_screen (self w) ∧
    screens (self w2) = screens (self w) ∧
    heap w2 = heap w ∧
    trace w2 = trace w.
Proof.
  intros Hi Hc Hscr Hreg.
  rewrite (transition_registered _ _ _ Hi).
  set (w1 := World_mk (heap w)
               (set_current_screen (Some l)
                  (set_previous_screen (current_screen (self w)) (self w)))
               (trace w)).
  assert (Hback : Shell.previous w1 =
                  Val tt (World_mk (heap w)
                            (set_current_screen (Some c)
                               (set_previous_screen (Some l) (self w1)))
                            (trace w))).
  { unfold Shell.previous, M_bind, get_self.
    change (previous_screen (self w1)) with (current_screen (self w)).
    rewrite Hc. rewrite (attr_id_spec w1 c scr) by done.
    by rewrite (transition_registered w1 (Screen.id scr) c). }
  exists w1. eexists. split; [reflexivity|]. split; [reflexivity|].
  split; [by rewrite <- Hc|]. split; [exact Hback|]. done.
Qed.

Lemma transition_then_previous_witness :
  ∃ w1 w2,
    Shell.transition (Some "other")
      (World_mk Sample.heap2
         (set_screens (<["other" := 1]> {["main" := 0]}) (self Sample.world_home)) [])
    = Val tt w1 ∧
    current_screen (self w1) = Some 1 ∧
    previous_screen (self w1) = Some 0 ∧
    Shell.previous w1 = Val tt w2 ∧
    current_screen (self w2) = Some 0 ∧
    previous_screen (self w2) = Some 1 ∧
    home_screen (self w2) = Some 0 ∧
    screens (self w2) = <["other" := 1]> {["main" := 0]} ∧
    heap w2 = Sample.heap2 ∧
    trace w2 = [].
Proof.
  refine (transition_then_previous
            (World_mk Sample.heap2
               (set_screens (<["other" := 1]> {["main" := 0]}) (self Sample.world_home)) [])
            "other" 1 0 Sample.screen_main _ _ _ _).
  - vm_compute. reflexivity.
  - reflexivity.
  - vm_compute. reflexivity.
  - vm_compute. reflexivity.
Defined.

(** X18: [home()], and [previous()] when there is no previous screen,
    make the home screen current (when it is registered under its own
    id), record the screen they leave as the previous one and log
    nothing. *)
Theorem home_and_first_previous w h scr :
  home_screen (self w) = Some h →
  heap w !! h = Some scr →
  screens (self w) !! Screen.id scr = Some h →
  Shell.home w =
    Val tt (World_mk (heap w)
              (set_current_screen (Some h)
                 (set_previous_screen (current_screen (self w)) (self w)))
              (trace w)) ∧
  (previous_screen (self w) = None → Shell.previous w = Shell.home w).
Proof.
  intros Hh Hscr Hreg. split.
  - unfold Shell.home, M_bind, get_self. rewrite Hh.
    rewrite (attr_id_spec _ _ _ Hscr). by apply transition_registered.
  - intros Hp. unfold Shell.previous, M_bind, get_self. by rewrite Hp.
Qed.

Lemma home_and_first_previous_witness :
  Shell.home Sample.world_home =
    Val tt (World_mk (heap Sample.world_home)
              (set_current_screen (Some 0)
                 (set_previous_screen (Some 0) (self Sample.world_home))) []) ∧
  (previous_screen (self Sample.world_home) = None →
   Shell.previous Sample.world_home = Shell.home Sample.world_home).
Proof.
  refine (home_and_first_previous Sample.world_home 0 Sample.screen_main _ _ _).
  - reflexivity.
  - vm_compute. reflexivity.
  - vm_compute. reflexivity.
Defined.

(** X19: a screen that was added can be reached by its id: after
    [add_screen(screen)], [transition(screen.id)] makes that very screen
    current and logs nothing, also when another screen had been
    registered under the same id before. *)
Theorem add_screen_then_transition w l scr is_home :
  heap w !! l = Some scr →
  ∃ w', (let* _ := Shell.add_screen (Some l) is_home in
         Shell.transition (Some (Screen.id scr))) w = Val tt w' ∧
        current_screen (self w') = Some l ∧
        screens (self w') !! Screen.id scr = Some l ∧
        heap w' = heap w ∧
        trace w' = trace w.
Proof.
  intros Hl. unfold M_bind. rewrite (add_screen_spec _ _ _ _ Hl).
  rewrite (transition_registered _ (Screen.id scr) l).
  - eexists. split; [reflexivity|]. simpl. by rewrite lookup_insert_eq.
  - simpl. by rewrite lookup_insert_eq.
Qed.

Lemma add_screen_then_transition_witness :
  ∃ w', (let* _ := Shell.add_screen (Some 1) false in
         Shell.transition (Some "other")) Sample.world_home = Val tt w' ∧
        current_screen (self w') = Some 1 ∧
        screens (self w') !! "other" = Some 1 ∧
        heap w' = Sample.heap2 ∧
        trace w' = [].
Proof.
  refine (add_screen_then_transition Sample.world_home 1 Sample.screen_other false _).
  vm_compute. reflexivity.
Defined.

(** X20: the shell holds its screens by reference: a menu item
    registered on the current screen after the screen was added to the
    shell is found by the loop for each of its triggers that the shell
    itself has no item for. *)
Theorem item_added_later_is_found w l scr item t :
  current_screen (self w) = Some l →
  heap w !! l = Some scr →
  shell_menu_items (self w) !! t = None →
  has_trigger t item →
  ∃ w', (let* _ := Screen_add_menu_item l (Some item) in
         Shell.find_item t) w = Val (Some item) w' ∧
        self w' = self w ∧ trace w' = trace w.
Proof.
  intros Hc Hl Hg Ht.
  destruct (Screen_add_lookup scr item) as (scr' & Hadd & _ & Hin & _).
  unfold Screen_add_menu_item. munfold. rewrite Hl. rewrite Hadd. simpl.
  eexists. erewrite find_item_screen; [|done|done|by apply lookup_insert_eq].
  rewrite (Hin t Ht). done.
Qed.

Lemma item_added_later_is_found_witness :
  ∃ w', (let* _ := Screen_add_menu_item 0 (Some Sample.item_e) in
         Shell.find_item "e") Sample.world_x = Val (Some Sample.item_e) w' ∧
        self w' = self Sample.world_x ∧ trace w' = [].
Proof.
  refine (item_added_later_is_found Sample.world_x 0 Sample.screen_x
            Sample.item_e "e" _ _ _ _).
  - reflexivity.
  - vm_compute. reflexivity.
  - vm_compute. reflexivity.
  - unfold has_trigger. simpl. apply list_elem_of_singleton. reflexivity.
Defined.

(* ===================================================================== *)
(** ** Rendering and the prompt                                           *)
(* ===================================================================== *)

(** X21: [_render_menu_item] lays a menu item out in two columns: for
    every trigger and description it returns, and the line that carries
    the description starts with exactly seven characters before it.  For
    a trigger shorter than four characters these are three spaces and
    the trigger padded with spaces, on the one line written; otherwise
    the trigger is written on a line of its own after three spaces, and
    the description follows on the next line after seven spaces. *)
Theorem description_starts_at_column_seven trigger description w :
  ∃ before,
    String.length before = 7 ∧
    (if Nat.ltb (String.length trigger) 4
     then before = "   " +:+ trigger +:+ Str.spaces (4 - String.length trigger) ∧
          Shell._render_menu_item trigger description w =
          Val tt (after w [EvWrite (before +:+ description)])
     else before = Str.spaces 7 ∧
          Shell._render_menu_item trigger description w =
          Val tt (after w [EvWrite ("   " +:+ trigger);
                            EvWrite (before +:+ description)])).
Proof.
  rewrite render_menu_item_layout.
  destruct (Nat.ltb (String.length trigger) 4) eqn:Hlen.
  - exists ("   " +:+ Str.ljust 4 trigger). split.
    + apply Nat.ltb_lt in Hlen.
      change (String.length ("   " +:+ Str.ljust 4 trigger))
        with (3 + String.length (Str.ljust 4 trigger)).
      rewrite StrFacts.ljust_length by lia. done.
    + done.
  - exists (Str.spaces 7). done.
Qed.

(** X22: on a current screen without menu items, [render_menu] returns
    only when it has no shell item to show: without the shell menu it
    writes two empty lines, with an empty shell menu three; with any item
    in the shell menu it writes three empty lines and raises
    [AttributeError] for [item.trigger]. *)
Theorem render_menu_empty_screen w l scr :
  current_screen (self w) = Some l →
  heap w !! l = Some scr →
  Screen.items scr = [] →
  Shell.render_menu false w =
    Val tt (after w [EvWrite EmptyString; EvWrite EmptyString]) ∧
  (shell_menu_items (self w) = ∅ →
   Shell.render_menu true w =
     Val tt (after w [EvWrite EmptyString; EvWrite EmptyString; EvWrite EmptyString])) ∧
  (shell_menu_items (self w) ≠ ∅ →
   Shell.render_menu true w =
     Exc (AttributeError "trigger")
         (after w [EvWrite EmptyString; EvWrite EmptyString; EvWrite EmptyString])).
Proof.
  intros Hc Hl Hitems. unfold Shell.render_menu.
  split; [|split].
  - munfold. simpl. rewrite Hc. simpl. rewrite Hl, Hitems. simpl.
    munfold. simpl. by rewrite <- app_assoc.
  - intros Hempty. munfold. simpl. rewrite Hc. simpl. rewrite Hl, Hitems. simpl.
    munfold. simpl. rewrite Hempty, map_size_empty. simpl.
    by rewrite <- !app_assoc.
  - intros Hne. munfold. simpl. rewrite Hc. simpl. rewrite Hl, Hitems. simpl.
    munfold. simpl.
    assert (Hsize : Nat.ltb 0 (size (shell_menu_items (self w))) = true).
    { apply Nat.ltb_lt. apply map_size_non_empty_iff in Hne. lia. }
    rewrite Hsize.
    destruct (map_to_list (shell_menu_items (self w))) as [|[k x] rest] eqn:Hlist.
    { by apply map_to_list_empty_iff in Hlist. }
    simpl. munfold. simpl. by rewrite <- !app_assoc.
Qed.

Lemma render_menu_empty_screen_witness :
  Shell.render_menu false Sample.world_home =
    Val tt (after Sample.world_home [EvWrite EmptyString; EvWrite EmptyString]) ∧
  (shell_menu_items (self Sample.world_home) = ∅ →
   Shell.render_menu true Sample.world_home =
     Val tt (after Sample.world_home
               [EvWrite EmptyString; EvWrite EmptyString; EvWrite EmptyString])) ∧
  (shell_menu_items (self Sample.world_home) ≠ ∅ →
   Shell.render_menu true Sample.world_home =
     Exc (AttributeError "trigger")
         (after Sample.world_home
            [EvWrite EmptyString; EvWrite EmptyString; EvWrite EmptyString])).
Proof.
  refine (render_menu_empty_screen Sample.world_home 0 Sample.screen_main _ _ _).
  - reflexivity.
  - vm_compute. reflexivity.
  - reflexivity.
Defined.

(** X24: with the prompt prefix that [Shell] sets, the prompt shown is
    the id of the current screen between parentheses, then an arrow; an
    id that itself holds the placeholder is shown as it is. *)
Theorem prompt_shows_screen_id w l scr :
  current_screen (self w) = Some l →
  heap w !! l = Some scr →
  prompt_prefix (self w) = "($s) => " →
  Shell._prompt_prefix w = Val ("(" +:+ Screen.id scr +:+ ") => ") w.
Proof.
  intros Hc Hl Hp. rewrite (prompt_prefix_spec _ _ _ Hc Hl).
  unfold prompt_of. rewrite Hp. reflexivity.
Qed.

Lemma prompt_shows_screen_id_witness :
  Shell._prompt_prefix Sample.world_x = Val "(main) => " Sample.world_x.
Proof.
  refine (prompt_shows_screen_id Sample.world_x 0 Sample.screen_x _ _ _).
  - reflexivity.
  - vm_compute. reflexivity.
  - reflexivity.
Defined.

(* ===================================================================== *)
(** ** The commands of the shell, through the loop                        *)
(* ===================================================================== *)

(** With an item in the menu of the shell, [render_menu] raises once it
    gets to the shell items, if not before. *)
Lemma render_menu_shell_item w l scr :
  current_screen (self w) = Some l →
  heap w !! l = Some scr →
  shell_menu_items (self w) ≠ ∅ →
  ∃ evs, Shell.render_menu true w = Exc (AttributeError "trigger") (after w evs).
Proof.
  intros Hc Hl Hne.
  destruct (Screen.items scr) as [|d ds] eqn:Hitems.
  - exists [EvWrite EmptyString; EvWrite EmptyString; EvWrite EmptyString].
    unfold Shell.render_menu. munfold. simpl. rewrite Hc. simpl.
    rewrite Hl, Hitems. simpl. munfold. simpl.
    assert (Hsize : Nat.ltb 0 (size (shell_menu_items (self w))) = true).
    { apply Nat.ltb_lt. apply map_size_non_empty_iff in Hne. lia. }
    rewrite Hsize.
    destruct (map_to_list (shell_menu_items (self w))) as [|[k x] rest] eqn:Hlist.
    { by apply map_to_list_empty_iff in Hlist. }
    simpl. munfold. simpl. by rewrite <- !app_assoc.
  - exists [EvWrite EmptyString].
    by apply render_menu_first_item with l scr d ds.
Qed.

(** X25: the help command never shows the menu.  A line that is just a
    trigger the shell has for [render_menu] ends [start] with
    [AttributeError] for [item.trigger]: the menu of the shell holds at
    least the help item itself, and rendering stops at the first item it
    meets.  Only empty lines have been written, and the shell and its
    screens are what they were. *)
Theorem start_help_command_raises user w l scr input trigger item rest :
  current_screen (self w) = Some l →
  heap w !! l = Some scr →
  Str.split input = [trigger] →
  shell_menu_items (self w) !! trigger = Some item →
  MenuItem.func item = Frender_menu →
  MenuItem.args item = [] →
  MenuItem.kwargs item = ∅ →
  ∃ evs,
    Shell.start user (Input (Some input) :: rest) w =
    Exc (AttributeError "trigger")
        (after w ([EvPrompt (prompt_of (self w) scr); EvCall Frender_menu [] ∅] ++ evs)).
Proof.
  intros Hc Hl Hsplit Hg Hf Ha Hk.
  assert (Hsel : selects w scr input item []).
  { exists l, trigger. split; [done|]. split; [done|]. split; [done|].
    split; [by apply find_item_global|]. by rewrite Hk. }
  rewrite start_step, (loop_body_selects _ _ _ _ _ _ Hsel).
  unfold M_bind, catch_Exit, at_call, call_args. rewrite Hf, Ha, Hk. simpl.
  rewrite bool_decide_eq_true_2 by done.
  destruct (render_menu_shell_item
              (after w [EvPrompt (prompt_of (self w) scr); EvCall Frender_menu [] ∅])
              l scr) as [evs Hr]; [done|done| |].
  { simpl. intros Hempty. by rewrite Hempty, lookup_empty in Hg. }
  exists evs. rewrite Hr. unfold after. simpl. by rewrite <- app_assoc.
Qed.

Lemma start_help_command_raises_witness :
  ∃ evs,
    Shell.start Sample.user0 [Input (Some "help"); EOFError] Sample.world_home =
    Exc (AttributeError "trigger")
        (after Sample.world_home
           ([EvPrompt "(main) => "; EvCall Frender_menu [] ∅] ++ evs)).
Proof.
  refine (start_help_command_raises Sample.user0 Sample.world_home 0
            Sample.screen_main "help" "help"
            (MenuItem.mk (PySeq PyList ["?"; "help"]) "display help" Frender_menu [] ∅)
            [EOFError] _ _ _ _ _ _ _).
  - reflexivity.
  - vm_compute. reflexivity.
  - vm_compute. reflexivity.
  - vm_compute. reflexivity.
  - reflexivity.
  - reflexivity.
  - reflexivity.
Defined.

(** X26: a line that is just a trigger of the clear command makes the
    shell run [clear] through [os.system] and nothing else; without
    automatic rendering the loop goes on with the next read, the shell
    and its screens being what they were. *)
Theorem start_clear_command user w scr input item rest :
  selects w scr input item [] →
  MenuItem.func item = Fclear_screen →
  MenuItem.args item = [] →
  MenuItem.kwargs item = ∅ →
  auto_render_menu (self w) = false →
  Shell.start user (Input (Some input) :: rest) w =
  Shell.start user rest
    (after w [EvPrompt (prompt_of (self w) scr); EvCall Fclear_screen [] ∅;
              EvSystem "clear"]).
Proof.
  intros Hsel Hf Ha Hk Hauto.
  rewrite start_step, (loop_body_selects _ _ _ _ _ _ Hsel).
  unfold M_bind, catch_Exit, at_call, call_args. rewrite Hf, Ha, Hk. simpl.
  rewrite bool_decide_eq_true_2 by done.
  unfold Shell.clear_screen, Shell.after_call. munfold. simpl. rewrite Hauto.
  by rewrite <- app_assoc.
Qed.

Lemma start_clear_command_witness :
  Shell.start Sample.user0 [Input (Some "clear"); EOFError] Sample.world_x =
  Shell.start Sample.user0 [EOFError]
    (after Sample.world_x [EvPrompt "(main) => "; EvCall Fclear_screen [] ∅;
                           EvSystem "clear"]).
Proof.
  refine (start_clear_command Sample.user0 Sample.world_x Sample.screen_x "clear"
            (MenuItem.mk (PySeq PyList ["/"; "clear"]) "clears the screen"
                         Fclear_screen [] ∅) [EOFError] _ _ _ _ _).
  - exists 0, "clear". repeat split; vm_compute; reflexivity.
  - reflexivity.
  - reflexivity.
  - reflexivity.
  - reflexivity.
Defined.

(* ===================================================================== *)
(** ** The menu of the shell: a run of registrations                      *)
(* ===================================================================== *)

Lemma shell_add_menu_items_cons s x rest s' :
  shell_add_menu_items s (x :: rest) = Ok s' →
  ∃ s1, Shell.add_menu_item s (Some x) = Ok s1 ∧
        shell_add_menu_items s1 rest = Ok s'.
Proof. intros H. eexists. split; [reflexivity|exact H]. Qed.

Lemma shell_add_menu_items_app s l1 l2 s' :
  shell_add_menu_items s (l1 ++ l2) = Ok s' →
  ∃ s1, shell_add_menu_items s l1 = Ok s1 ∧ shell_add_menu_items s1 l2 = Ok s'.
Proof.
  revert s. induction l1 as [|x l1 IH]; intros s.
  - intros H. by exists s.
  - rewrite <- app_comm_cons.
    intros (s1 & Hadd & Hrun)%shell_add_menu_items_cons.
    destruct (IH _ Hrun) as (s2 & H1 & H2). exists s2. split; [|done].
    injection Hadd as <-. exact H1.
Qed.

(** A run of registrations only touches the triggers of its items. *)
Lemma shell_add_menu_items_other s l s' t :
  shell_add_menu_items s l = Ok s' →
  (∀ y, y ∈ l → ¬ has_trigger t y) →
  shell_menu_items s' !! t = shell_menu_items s !! t.
Proof.
  revert s. induction l as [|x rest IH]; intros s.
  - by intros [= <-].
  - intros (s1 & Hadd & Hrun)%shell_add_menu_items_cons Hnone.
    rewrite (IH _ Hrun).
    + injection Hadd as <-. simpl. apply register_lookup_notin.
      apply Hnone. apply elem_of_cons. by left.
    + intros y Hy. apply Hnone. apply elem_of_cons. by right.
Qed.

Lemma shell_add_menu_items_pointers s l s' :
  shell_add_menu_items s l = Ok s' →
  screens s' = screens s ∧ current_screen s' = current_screen s ∧
  home_screen s' = home_screen s ∧ previous_screen s' = previous_screen s ∧
  auto_render_menu s' = auto_render_menu s ∧ prompt_prefix s' = prompt_prefix s.
Proof.
  revert s. induction l as [|x rest IH]; intros s.
  - by intros [= <-].
  - intros (s1 & Hadd & Hrun)%shell_add_menu_items_cons.
    destruct (IH _ Hrun) as (-> & -> & -> & -> & -> & ->).
    injection Hadd as <-. done.
Qed.

(** X27: after any run of registrations in the menu of the shell, a
    trigger resolves to the last item of the run that has it (so an item
    registered for [q] replaces the stop command of a new shell), a
    trigger of no item of the run resolves as before, and the screens,
    the pointers and the settings of the shell are what they were. *)
Theorem shell_lookup_is_last_registration s l s' t :
  shell_add_menu_items s l = Ok s' →
  (∀ x, last_with_trigger t l x → shell_menu_items s' !! t = Some x) ∧
  ((∀ y, y ∈ l → ¬ has_trigger t y) →
   shell_menu_items s' !! t = shell_menu_items s !! t) ∧
  screens s' = screens s ∧ current_screen s' = current_screen s ∧
  home_screen s' = home_screen s ∧ previous_screen s' = previous_screen s ∧
  auto_render_menu s' = auto_render_menu s ∧ prompt_prefix s' = prompt_prefix s.
Proof.
  intros Hrun. split; [|split].
  - intros x (l1 & l2 & -> & Hx & Hl2).
    apply shell_add_menu_items_app in Hrun as (s1 & _ & Hrun).
    apply shell_add_menu_items_cons in Hrun as (s2 & Hadd & Hrun).
    rewrite (shell_add_menu_items_other _ _ _ t Hrun Hl2).
    injection Hadd as <-. simpl. by apply register_lookup_in.
  - by apply shell_add_menu_items_other.
  - by apply shell_add_menu_items_pointers with l.
Qed.

Lemma shell_lookup_is_last_registration_witness :
  (∀ x, last_with_trigger "q" [Sample.item_q] x →
        shell_menu_items (set_shell_menu_items
                            (<["q" := Sample.item_q]> (shell_menu_items Sample.shell0))
                            Sample.shell0) !! "q" = Some x) ∧
  ((∀ y, y ∈ [Sample.item_q] → ¬ has_trigger "q" y) →
   shell_menu_items (set_shell_menu_items
                       (<["q" := Sample.item_q]> (shell_menu_items Sample.shell0))
                       Sample.shell0) !! "q"
   = shell_menu_items Sample.shell0 !! "q") ∧
  screens (set_shell_menu_items
             (<["q" := Sample.item_q]> (shell_menu_items Sample.shell0))
             Sample.shell0) = screens Sample.shell0 ∧
  current_screen (set_shell_menu_items
             (<["q" := Sample.item_q]> (shell_menu_items Sample.shell0))
             Sample.shell0) = current_screen Sample.shell0 ∧
  home_screen (set_shell_menu_items
             (<["q" := Sample.item_q]> (shell_menu_items Sample.shell0))
             Sample.shell0) = home_screen Sample.shell0 ∧
  previous_screen (set_shell_menu_items
             (<["q" := Sample.item_q]> (shell_menu_items Sample.shell0))
             Sample.shell0) = previous_screen Sample.shell0 ∧
  auto_render_menu (set_shell_menu_items
             (<["q" := Sample.item_q]> (shell_menu_items Sample.shell0))
             Sample.shell0) = auto_render_menu Sample.shell0 ∧
  prompt_prefix (set_shell_menu_items
             (<["q" := Sample.item_q]> (shell_menu_items Sample.shell0))
             Sample.shell0) = prompt_prefix Sample.shell0.
Proof.
  refine (shell_lookup_is_last_registration Sample.shell0 [Sample.item_q]
            (set_shell_menu_items
               (<["q" := Sample.item_q]> (shell_menu_items Sample.shell0))
               Sample.shell0) "q" _).
  reflexivity.
Defined.
